(** * Download organizer: a shallow embedding of [main.py]

  The development follows the layout of the source file:
  - [Pathlib]: the few [pathlib.PurePath] accessors the program uses
    ([name], [stem], [suffix]) on file names;
  - [Table]: the [EXTENSIONS] table, [TEMPORARY_EXTENSIONS] and
    [generate_extension_dictionary];
  - the world the program runs in: the watched directory, the clock,
    the console and the handler object, with a small state-and-exception
    monad in which a raised exception keeps the state reached so far,
    as in Python;
  - [FolderManager]: [move_file] and [orgnanize_files];
  - [DownloadEventHandler]: [is_file_stable] and [on_created], and the
    serial delivery of creation events by the observer thread.

  Timestamps and durations ([time.time()], [time.sleep]) are integers
  counting clock ticks; rounding of binary floating point is not
  modelled. *)

From Stdlib Require Import Ascii.
From stdpp Require Import gmap strings list fin_maps pretty.

Local Open Scope Z_scope.

(** ** File names: [str] methods and [pathlib] accessors *)

Module Pathlib.

(** [s.rfind(c)]: index of the last occurrence of [c], [None] for -1. *)
Fixpoint rfind (c : ascii) (s : string) : option nat :=
  match s with
  | EmptyString => None
  | String a r =>
      match rfind c r with
      | Some i => Some (S i)
      | None => if decide (a = c) then Some 0%nat else None
      end
  end.

(** [s[:i]] and [s[i:]]. *)
Fixpoint take (i : nat) (s : string) : string :=
  match i, s with
  | S j, String a r => String a (take j r)
  | _, _ => EmptyString
  end.

Fixpoint drop (i : nat) (s : string) : string :=
  match i, s with
  | S j, String _ r => drop j r
  | _, _ => s
  end.

(** [PurePath.suffix] and [PurePath.stem] of a final path component
    (CPython up to 3.13):
    [i = name.rfind('.')]; the suffix is [name[i:]] and the stem
    [name[:i]] when [0 < i < len(name) - 1], otherwise the suffix is
    empty and the stem is the whole name. *)
Definition has_suffix (name : string) (i : nat) : bool :=
  bool_decide (0 < i ∧ i < String.length name - 1)%nat.

Definition suffix (name : string) : string :=
  match rfind "."%char name with
  | Some i => if has_suffix name i then drop i name else ""
  | None => ""
  end.

Definition stem (name : string) : string :=
  match rfind "."%char name with
  | Some i => if has_suffix name i then take i name else name
  | None => name
  end.

(** [s.startswith(p)]. *)
Fixpoint startswith (p s : string) : bool :=
  match p, s with
  | EmptyString, _ => true
  | String a p', String b s' => bool_decide (a = b) && startswith p' s'
  | String _ _, EmptyString => false
  end.

(** [s.lower()] on ASCII letters. *)
Definition lower_ascii (a : ascii) : ascii :=
  let n := Ascii.nat_of_ascii a in
  if bool_decide (65 ≤ n ∧ n ≤ 90)%nat then Ascii.ascii_of_nat (n + 32) else a.

Fixpoint lower (s : string) : string :=
  match s with
  | EmptyString => EmptyString
  | String a r => String (lower_ascii a) (lower r)
  end.

End Pathlib.

(** ** The extension table *)

Module Table.

(** [EXTENSIONS]: a dict literal, kept in insertion order. *)
Definition EXTENSIONS : list (string * list string) :=
  [ ("images", [".jpg"; ".jpeg"; ".png"; ".gif"; ".bmp"; ".tiff"; ".webp";
                ".svg"; ".ico"; ".eps"; ".raw"; ".cr2"; ".nef"]);
    ("videos", [".mp4"; ".avi"; ".mkv"; ".mov"; ".wmv"; ".flv"; ".webm";
                ".m4v"; ".3gp"; ".mxf"; ".mts"; ".vob"]);
    ("documents", [".pdf"; ".doc"; ".docx"; ".txt"; ".xlsx"; ".ppt";
                   ".pptx"; ".csv"; ".odt"; ".rtf"; ".epub"; ".odf"]);
    ("music", [".mp3"; ".wav"; ".flac"; ".m4a"; ".ogg"; ".midi"; ".aac";
               ".wma"; ".alac"; ".amr"]);
    ("programs", [".exe"; ".msi"; ".app"; ".bat"; ".cmd"; ".py"; ".jar";
                  ".dll"; ".sh"]);
    ("compressed", [".zip"; ".rar"; ".7z"; ".tar"; ".gz"; ".bz2"; ".xz";
                    ".iso"]);
    ("databases", [".mdf"; ".ndf"; ".ldf"; ".frm"; ".ibd"; ".myd"; ".myi";
                   ".sql"; ".dump"; ".conf"; ".sqlite"; ".sqlite3"; ".db";
                   ".db3"; ".dbf"; ".ctl"; ".log"; ".mdb"; ".accdb"; ".bkp";
                   ".fdb"; ".dbs"; ".idx"; ".hdb"; ".bak"]);
    ("others", []) ].

Definition TEMPORARY_EXTENSIONS : gset string :=
  {[ ".crdownload"; ".part"; ".tmp" ]}.

(** The inner loop of [generate_extension_dictionary]:
    [for file_ext in lst: d[file_ext] = category]. *)
Definition add_category (d : gmap string string) (category : string)
    (lst : list string) : gmap string string :=
  foldl (λ acc file_ext, <[file_ext := category]> acc) d lst.

(** The outer loop, over any table. *)
Definition generate_from (table : list (string * list string))
    : gmap string string :=
  foldl (λ acc entry, add_category acc entry.1 entry.2) ∅ table.

Definition generate_extension_dictionary : gmap string string :=
  generate_from EXTENSIONS.

(** [extension_dict.get(suffix, 'others')], line 79 of the source. *)
Definition resolve (suffix : string) : string :=
  default "others" (generate_extension_dictionary !! suffix).

(** Every extension listed in a table, in order. *)
Definition all_extensions (table : list (string * list string))
    : list string :=
  concat (table.*2).

End Table.

(** ** The world the program runs in *)

(** File contents are byte strings; [st_size] is their length. *)
Definition content : Type := list Byte.byte.

(** An entry of a category subdirectory: a regular file, or a nested
    directory whose own contents are not tracked. *)
Inductive leaf : Type :=
  | LFile (data : content)
  | LDir.

(** An immediate child of the watched root: a regular file, or a
    directory with its write permission and its entries. *)
Inductive node : Type :=
  | File (data : content)
  | Dir (dir_writable : bool) (children : gmap string leaf).

(** The watched root ([parent_folder]): its entries by name and its own
    read and write permission. *)
Record filesystem : Type := mk_fs {
  entries : gmap string node;
  readable : bool;
  writable : bool
}.

(** The exceptions the modelled library calls raise; all of them are
    subclasses of [Exception] (the first four of [OSError]).
    [FileNameTooLong] is the plain [OSError] with errno [ENAMETOOLONG]. *)
Inductive exn : Type :=
  | FileNotFoundError
  | NotADirectoryError
  | PermissionError
  | FileExistsError
  | ShutilError
  | ValueError
  | FileNameTooLong.

Global Instance exn_eq_dec : EqDecision exn.
Proof. solve_decision. Defined.

(** What the program prints, one constructor per [print] call:
    - [MsgCannotMove e]: "Cannot move files or create sub folders: {e}"
    - [MsgNoFiles]: "No files to organize"
    - [MsgIgnoring name]: "ingnoring {file_path.name} file"
    - [MsgDownloadComplete]: "Download complete"
    - [MsgIncomplete]: "File incomplete or still downloading" *)
Inductive message : Type :=
  | MsgCannotMove (e : exn)
  | MsgNoFiles
  | MsgIgnoring (name : string)
  | MsgDownloadComplete
  | MsgIncomplete.

(** The attributes of a [DownloadEventHandler] object. *)
Record DownloadEventHandler : Type := mk_handler {
  stability_float : Z;
  delay : Z;
  last_event_time : Z
}.

(** The whole state: filesystem, clock, console, the handler object, and
    two counters that only record how often [is_file_stable] and
    [orgnanize_files] were entered. *)
Record world : Type := mk_world {
  fs : filesystem;
  now : Z;
  out : list message;
  handler : DownloadEventHandler;
  probes : nat;
  scans : nat
}.

Definition with_fs (f : filesystem) (w : world) : world :=
  mk_world f (now w) (out w) (handler w) (probes w) (scans w).

Definition with_entries (m : gmap string node) (w : world) : world :=
  with_fs (mk_fs m (readable (fs w)) (writable (fs w))) w.

Definition with_last_event_time (t : Z) (w : world) : world :=
  mk_world (fs w) (now w) (out w)
    (mk_handler (stability_float (handler w)) (delay (handler w)) t)
    (probes w) (scans w).

(** ** A state-and-exception monad

    A computation ends by returning a value, by raising an exception, or
    by exhausting the budget of a loop ([Timeout], which no [except]
    clause catches). The state reached is kept in every case. *)
Inductive outcome (A : Type) : Type :=
  | Return (a : A)
  | Raise (e : exn)
  | Timeout.
Global Arguments Return {A} a.
Global Arguments Raise {A} e.
Global Arguments Timeout {A}.

Definition M (A : Type) : Type := world → outcome A * world.

Global Instance M_ret : MRet M := λ A a w, (Return a, w).

Global Instance M_bind : MBind M := λ A B k m w,
  match m w with
  | (Return a, w') => k a w'
  | (Raise e, w') => (Raise e, w')
  | (Timeout, w') => (Timeout, w')
  end.

Definition timeout {A : Type} : M A := λ w, (Timeout, w).

(** [try: body  except <caught> as e: handle e]. *)
Definition try_except {A : Type} (body : M A) (caught : exn → bool)
    (handle : exn → M A) : M A := λ w,
  match body w with
  | (Raise e, w') => if caught e then handle e w' else (Raise e, w')
  | r => r
  end.

Definition gets {A : Type} (f : world → A) : M A := λ w, (Return (f w), w).

Definition modify (f : world → world) : M unit := λ w, (Return tt, f w).

(** [print(msg)]. *)
Definition print (msg : message) : M unit :=
  modify (λ w, mk_world (fs w) (now w) (out w ++ [msg]) (handler w)
                 (probes w) (scans w)).

(** [time.time()]. *)
Definition time_time : M Z := gets now.

(** ** Library calls on the watched directory

    A path is given relative to the watched root: [p] stands for
    [root / p] and the pair [d], [x] for [root / d / x]. Names are byte
    strings. The names the program is handed, those of a listing and
    the category names, are names the filesystem holds or takes; a name
    the program makes up, a numbered candidate of [move_file], can be
    longer than the filesystem allows. *)

(** [Path.exists()] of [root / p]. *)
Definition path_exists (p : string) : M bool :=
  gets (λ w, bool_decide (is_Some (entries (fs w) !! p))).

(** [Path.exists()] of [root / d / x]; false when [root / d] is not a
    directory. *)
Definition exists_in (f : filesystem) (d x : string) : bool :=
  match entries f !! d with
  | Some (Dir _ kids) => bool_decide (is_Some (kids !! x))
  | _ => false
  end.

(** The longest file name, in bytes, the filesystem takes ([NAME_MAX]
    of Linux filesystems). *)
Definition NAME_MAX : nat := 255.

(** The limit that applies while [file] is dispatched: [file] names an
    entry of the same filesystem, so the limit is not below its own
    length. *)
Definition name_limit (file : string) : nat :=
  Nat.max NAME_MAX (String.length file).

(** [Path.exists()] of [root / d / x] on a filesystem that takes names
    of at most [limit] bytes: the [stat] call behind it fails with
    [ENAMETOOLONG] on a longer name, an error [exists] does not
    swallow. *)
Definition path_exists_in (limit : nat) (d x : string) : M bool := λ w,
  if bool_decide (limit < String.length x)%nat
  then (Raise FileNameTooLong, w)
  else (Return (exists_in (fs w) d x), w).

(** [Path.is_file()] of [root / p]. *)
Definition is_file (p : string) : M bool :=
  gets (λ w, match entries (fs w) !! p with
             | Some (File _) => true
             | _ => false
             end).

(** The size [stat] reports for [root / p], when it exists; a directory
    reports one block. *)
Definition st_size (f : filesystem) (p : string) : option Z :=
  match entries f !! p with
  | Some (File c) => Some (Z.of_nat (length c))
  | Some (Dir _ _) => Some 4096
  | None => None
  end.

(** [Path.stat().st_size] of [root / p]. *)
Definition stat_size (p : string) : M Z := λ w,
  match st_size (fs w) p with
  | Some n => (Return n, w)
  | None => (Raise FileNotFoundError, w)
  end.

(** [Path.mkdir(parents=True, exist_ok=True)] of [root / d]. *)
Definition mkdir (d : string) : M unit := λ w,
  match entries (fs w) !! d with
  | Some (Dir _ _) => (Return tt, w)
  | Some (File _) => (Raise FileExistsError, w)
  | None =>
      if writable (fs w)
      then (Return tt, with_entries (<[d := Dir true ∅]> (entries (fs w))) w)
      else (Raise PermissionError, w)
  end.

(** [Path.iterdir()] of the root: the names present when the listing is
    taken. The order of a directory listing is arbitrary; this one is
    the map's, and the loop below is defined for any list. *)
Definition iterdir : M (list string) := λ w,
  if readable (fs w)
  then (Return ((map_to_list (entries (fs w))).*1), w)
  else (Raise PermissionError, w).

(** [shutil.move(src=root / src, dst=root / d / dst)].

    For a regular file: [os.rename] needs write permission on both
    directories and replaces an existing regular file; when it fails the
    fallback copies and then unlinks, so with a writable destination and
    a read-only root the copy is made, the unlink raises and the source
    stays. An existing directory at [dst] receives the file (its contents
    are not tracked). A directory source is only renamed; moving it into
    itself is refused. *)
Definition shutil_move (src d dst : string) : M unit := λ w,
  let m := entries (fs w) in
  match m !! src, m !! d with
  | None, _ => (Raise FileNotFoundError, w)
  | Some _, None => (Raise FileNotFoundError, w)
  | Some _, Some (File _) => (Raise NotADirectoryError, w)
  | Some (Dir _ _), Some (Dir dw kids) =>
      if bool_decide (src = d) then (Raise ShutilError, w)
      else if dw && writable (fs w)
      then (Return tt,
            with_entries (<[d := Dir dw (<[dst := LDir]> kids)]>
                            (delete src m)) w)
      else (Raise PermissionError, w)
  | Some (File c), Some (Dir dw kids) =>
      let kids' := match kids !! dst with
                   | Some LDir => kids
                   | _ => <[dst := LFile c]> kids
                   end in
      if negb dw then (Raise PermissionError, w)
      else if writable (fs w)
      then (Return tt, with_entries (<[d := Dir dw kids']> (delete src m)) w)
      else (Raise PermissionError, with_entries (<[d := Dir dw kids']> m) w)
  end.

(** ** FolderManager *)

Import Pathlib Table.

(** [f"{file.stem}({count}){file.suffix}"]. *)
Definition numbered (file : string) (count : nat) : string :=
  stem file +:+ "(" +:+ pretty count +:+ ")" +:+ suffix file.

(** The [while destination.exists()] loop of [move_file], lines 59-61.
    [budget] bounds the number of probes. *)
Fixpoint while_destination_exists (budget : nat) (file extension : string)
    (destination : string) (count : nat) : M string :=
  match budget with
  | O => timeout
  | S budget' =>
      e ← path_exists_in (name_limit file) extension destination;
      if e : bool
      then while_destination_exists budget' file extension
             (numbered file count) (S count)
      else mret destination
  end.

(** One more than the number of entries of [root / extension]: the loop
    above cannot need more probes than that (lemma
    [while_destination_exists_returns]). *)
Definition probe_budget (extension : string) : M nat :=
  gets (λ w, match entries (fs w) !! extension with
             | Some (Dir _ kids) => S (size kids)
             | _ => 1%nat
             end).

(** The [try] block of [move_file], lines 54-62, with [file] standing
    for [root / file] and [extension] for [root / extension]. *)
Definition move_file_try (file extension : string) : M unit :=
  e ← path_exists extension;
  (if negb e then mkdir extension else mret tt) ;;
  let destination := file in
  let count := 1%nat in
  budget ← probe_budget extension;
  destination ← while_destination_exists budget file extension
                  destination count;
  shutil_move file extension destination.

(** [FolderManager.move_file(file, extension)]: the block above under
    [except Exception as e: print(...)]. *)
Definition move_file (file extension : string) : M unit :=
  try_except (move_file_try file extension)
    (λ _, true)
    (λ e, print (MsgCannotMove e)).

(** The [for file in self.parent_folder.iterdir()] loop of
    [orgnanize_files], lines 76-81, over a listing [l]; it returns
    [has_files]. *)
Fixpoint for_each_file (l : list string) (has_files : bool) : M bool :=
  match l with
  | [] => mret has_files
  | file :: rest =>
      f ← is_file file;
      if (f : bool) && negb (startswith "." file)
      then
        let extension := resolve (suffix file) in
        move_file file extension ;;
        for_each_file rest true
      else for_each_file rest has_files
  end.

(** [orgnanize_files] once the listing [l] has been taken. *)
Definition orgnanize_files_on (l : list string) : M unit :=
  has_files ← for_each_file l false;
  if negb has_files then print MsgNoFiles else mret tt.

(** [FolderManager.orgnanize_files()]. *)
Definition orgnanize_files : M unit :=
  modify (λ w, mk_world (fs w) (now w) (out w) (handler w) (probes w)
                 (S (scans w))) ;;
  l ← iterdir;
  orgnanize_files_on l.

(** ** DownloadEventHandler *)

(** A creation event: [event.is_directory] and the final component of
    [event.src_path] (the watch is not recursive, so every event is for
    an immediate child of the root). *)
Record event : Type := mk_event {
  is_directory : bool;
  src_path : string
}.

Section Watcher.

(** What other processes do to the watched directory between two
    instants, while the handler thread sleeps or waits. *)
Variable ambient : Z → Z → filesystem → filesystem.

(** [time.sleep(d)]: a negative duration raises [ValueError]. *)
Definition time_sleep (d : Z) : M unit := λ w,
  if bool_decide (d < 0) then (Raise ValueError, w)
  else (Return tt,
        mk_world (ambient (now w) (now w + d) (fs w)) (now w + d) (out w)
          (handler w) (probes w) (scans w)).

(** [DownloadEventHandler.is_file_stable(file_path)]. *)
Definition is_file_stable (file_path : string) : M bool :=
  modify (λ w, mk_world (fs w) (now w) (out w) (handler w) (S (probes w))
                 (scans w)) ;;
  try_except
    (initial_size ← stat_size file_path;
     d ← gets (λ w, stability_float (handler w));
     time_sleep d ;;
     final_size ← stat_size file_path;
     mret (bool_decide (final_size = initial_size)))
    (λ e, bool_decide (e = FileNotFoundError))
    (λ _, mret false).

(** [DownloadEventHandler.on_created(event)]. *)
Definition on_created (ev : event) : M unit :=
  if is_directory ev then mret tt
  else
    let file_path := src_path ev in
    if bool_decide (suffix file_path ∈ TEMPORARY_EXTENSIONS)
    then print (MsgIgnoring file_path)
    else
      stable ← is_file_stable file_path;
      if stable : bool
      then
        t ← time_time;
        last ← gets (λ w, last_event_time (handler w));
        let time_since_last_event := t - last in
        t' ← time_time;
        modify (with_last_event_time t') ;;
        dl ← gets (λ w, delay (handler w));
        if bool_decide (time_since_last_event > dl)
        then
          print MsgDownloadComplete ;;
          time_sleep dl ;;
          orgnanize_files
        else mret tt
      else print MsgIncomplete.

(** The observer thread: events are handled one at a time, in order of
    arrival; an event that arrives while the handler is busy waits, and
    an idle handler waits for the next arrival. *)
Definition wait_until (t : Z) : M unit := λ w,
  if bool_decide (now w < t)
  then (Return tt,
        mk_world (ambient (now w) t (fs w)) t (out w) (handler w)
          (probes w) (scans w))
  else (Return tt, w).

Definition deliver (arrival : Z * event) : M unit :=
  wait_until arrival.1 ;; on_created arrival.2.

Fixpoint dispatch_events (queue : list (Z * event)) : M unit :=
  match queue with
  | [] => mret tt
  | arrival :: rest => deliver arrival ;; dispatch_events rest
  end.

(** The elapsed time [on_created] computes for [ev] in state [w]
    ([time_since_last_event]): the clock after the stability probe
    minus the stored timestamp. *)
Definition elapsed_at (ev : event) (w : world) : Z :=
  now (is_file_stable (src_path ev) w).2 - last_event_time (handler w).

(** [ev] is an accepted trigger in state [w]: a creation event for a
    path that is no directory, has no temporary extension and is
    stable, with an elapsed time above [delay]. *)
Definition accepted (ev : event) (w : world) : Prop :=
  is_directory ev = false ∧
  (suffix (src_path ev) ∉ TEMPORARY_EXTENSIONS) ∧
  (is_file_stable (src_path ev) w).1 = Return true ∧
  elapsed_at ev w > delay (handler w).

End Watcher.

(** Other processes leave the directory alone. *)
Definition quiet : Z → Z → filesystem → filesystem := λ _ _ f, f.

(** The test of line 77, [file.is_file() and not
    file.name.startswith('.')], as a function of the state. *)
Definition eligible (w : world) (file : string) : bool :=
  match entries (fs w) !! file with
  | Some (File _) => true
  | _ => false
  end && negb (startswith "." file).

(** The world after [print(msg)]. *)
Definition printed (msg : message) (w : world) : world := (print msg w).2.

(** [d] is the destination [move_file] settles on in a directory with
    entries [kids]: the plain name when it is free, otherwise the
    numbered candidate with the lowest counter, from 1, that is free. *)
Definition lowest_free (kids : gmap string leaf) (file d : string) : Prop :=
  kids !! d = None ∧
  (d = file ∨
   ∃ n, (1 ≤ n)%nat ∧ d = numbered file n ∧ is_Some (kids !! file) ∧
        ∀ k, (1 ≤ k < n)%nat → is_Some (kids !! numbered file k)).

(** The loop of [move_file] is stopped by the numbered candidate [n]:
    the plain name and the candidates before [n] are taken, and
    candidate [n] is longer than the filesystem allows. *)
Definition stopped_by_length (kids : gmap string leaf) (file : string)
    (n : nat) : Prop :=
  (1 ≤ n ≤ size kids)%nat ∧
  (name_limit file < String.length (numbered file n))%nat ∧
  is_Some (kids !! file) ∧
  ∀ k, (1 ≤ k < n)%nat → is_Some (kids !! numbered file k).

(** The numbered candidates of [file] up to counter [n] are names the
    filesystem takes. *)
Definition candidates_fit (file : string) (n : nat) : Prop :=
  ∀ k, (1 ≤ k ≤ n)%nat → (String.length (numbered file k) ≤ NAME_MAX)%nat.

(** The category directory [root / extension] as [move_file] finds or
    creates it: absent (then created empty) or a writable directory. *)
Definition category_dir (w : world) (extension : string)
    (kids : gmap string leaf) : Prop :=
  (entries (fs w) !! extension = None ∧ kids = ∅) ∨
  entries (fs w) !! extension = Some (Dir true kids).

(** A download places a file called [file] with contents [c] in the
    root. *)
Definition arrive_file (file : string) (c : content) : M unit :=
  modify (λ w, with_entries (<[file := File c]> (entries (fs w))) w).

(** Files of the same name arrive one after the other, each dispatched
    before the next arrives. *)
Fixpoint dispatch_each (file extension : string) (cs : list content)
    : M unit :=
  match cs with
  | [] => mret tt
  | c :: rest =>
      arrive_file file c ;;
      move_file file extension ;;
      dispatch_each file extension rest
  end.

(** The name the [i]-th file of that series is expected under. *)
Definition nth_name (file : string) (i : nat) : string :=
  match i with O => file | S _ => numbered file i end.

(** Example data: file contents from a string literal, and the world of
    a watcher constructed at time [t0] with the default
    [stability_float] 1.0 and [delay] 5.0 (one tick is one second), seen
    at time [t] on a root with entries [m] and permissions [r], [wr],
    with nothing printed yet. *)
Definition bytes_of (s : string) : content := String.list_byte_of_string s.

Definition started (m : gmap string node) (r wr : bool) (t0 t : Z) : world :=
  mk_world (mk_fs m r wr) t [] (mk_handler 1 5 t0) 0 0.

(** A file name of exactly [NAME_MAX] bytes: 251 letters and ".txt". *)
Definition long_name : string :=
  String.string_of_list_ascii (replicate 251 "a"%char) +:+ ".txt".

(** The fields a scan leaves alone: the clock, the handler object and
    the two counters. *)
Definition same_frame (w w' : world) : Prop :=
  now w' = now w ∧ handler w' = handler w ∧
  probes w' = probes w ∧ scans w' = scans w.

(** The number of failure diagnostics on the console. *)
Definition is_failure (msg : message) : bool :=
  match msg with MsgCannotMove _ => true | _ => false end.

Definition failures (w : world) : nat :=
  length (filter (λ msg, is_failure msg = true) (out w)).

(** [w1] is a state a scan can reach from [w]: no regular file has
    appeared in the root or changed, every directory is still there
    with at least the entries it had, and no diagnostic was taken
    back. *)
Definition evolves (w w1 : world) : Prop :=
  (∀ n c, entries (fs w1) !! n = Some (File c) →
          entries (fs w) !! n = Some (File c)) ∧
  (∀ n dw kids, entries (fs w) !! n = Some (Dir dw kids) →
                ∃ kids', entries (fs w1) !! n = Some (Dir dw kids') ∧
                         kids ⊆ kids') ∧
  (failures w ≤ failures w1)%nat.




(** An event that cannot start a scan where the root is [f]: it is
    for a directory, for a path with a temporary extension, or for a
    path that is not in the root. *)
Definition spent_event (f : filesystem) (arrival : Z * event) : Prop :=
  is_directory arrival.2 = true ∨
  suffix (src_path arrival.2) ∈ TEMPORARY_EXTENSIONS ∨
  entries f !! src_path arrival.2 = None.

(** An event a scan of the root [f] takes care of: it is for a
    directory, for a path with a temporary extension, or for a path
    that is not the name of a category directory and is, in [f],
    missing or a regular file whose name does not start with a dot. *)
Definition burst_event (f : filesystem) (arrival : Z * event) : Prop :=
  is_directory arrival.2 = true ∨
  suffix (src_path arrival.2) ∈ TEMPORARY_EXTENSIONS ∨
  ((src_path arrival.2 ∉ EXTENSIONS.*1) ∧
   (entries f !! src_path arrival.2 = None ∨
    ∃ c, entries f !! src_path arrival.2 = Some (File c) ∧
         startswith "." (src_path arrival.2) = false)).

(** * Properties *)

(** Decide a closed decidable proposition by evaluation. *)
Ltac by_compute :=
  refine (bool_decide_unpack _ _); vm_compute; exact I.

(** ** Strings and file names *)

Lemma string_app_cons a s t : String a s +:+ t = String a (s +:+ t).
Proof. reflexivity. Qed.

Lemma string_app_length s t :
  String.length (s +:+ t) = (String.length s + String.length t)%nat.
Proof.
  induction s as [|a s IH]; [done|].
  rewrite string_app_cons. simpl. by rewrite IH.
Qed.

Lemma string_app_inv_tail s1 s2 t : s1 +:+ t = s2 +:+ t → s1 = s2.
Proof.
  revert s2. induction s1 as [|a s1 IH]; intros [|b s2] H.
  - done.
  - apply (f_equal String.length) in H.
    rewrite !string_app_length in H. simpl in H. lia.
  - apply (f_equal String.length) in H.
    rewrite !string_app_length in H. simpl in H. lia.
  - rewrite !string_app_cons in H. injection H as -> H.
    f_equal. by apply IH.
Qed.

Lemma take_drop i s : take i s +:+ drop i s = s.
Proof.
  revert s. induction i as [|i IH]; intros [|a s]; try done.
  simpl. rewrite string_app_cons. by rewrite IH.
Qed.

(** [file.stem + file.suffix == file.name]. *)
Lemma stem_suffix name : stem name +:+ suffix name = name.
Proof.
  unfold stem, suffix. destruct (rfind "." name) as [i|].
  - destruct (has_suffix name i); [apply take_drop|].
    clear. induction name as [|a s IH]; [done|].
    rewrite string_app_cons. by rewrite IH.
  - clear. induction name as [|a s IH]; [done|].
    rewrite string_app_cons. by rewrite IH.
Qed.

Lemma numbered_length file count :
  (String.length file < String.length (numbered file count))%nat.
Proof.
  unfold numbered. rewrite <- (stem_suffix file) at 1.
  rewrite !string_app_length. simpl. lia.
Qed.

(** A numbered candidate never is the plain name. *)
Lemma numbered_ne_name file count : numbered file count ≠ file.
Proof.
  intros H. pose proof (numbered_length file count) as Hlen.
  rewrite H in Hlen. lia.
Qed.

(** Different counters give different candidates. *)
Lemma numbered_inj file : Inj (=) (=) (numbered file).
Proof.
  intros n m H. unfold numbered in H.
  apply (String.app_inj (stem file)) in H.
  apply (String.app_inj "(") in H.
  apply string_app_inv_tail in H.
  by apply (inj pretty) in H.
Qed.

(** The dot of an extension that contains no other dot is the last dot
    of [base ++ ext]. *)
Lemma rfind_app_ext base c ext :
  rfind c ext = None →
  rfind c (base +:+ String c ext) = Some (String.length base).
Proof.
  intros Hext. induction base as [|a base IH].
  - change ("" +:+ String c ext) with (String c ext). simpl.
    rewrite Hext. by rewrite decide_True.
  - rewrite string_app_cons. simpl. by rewrite IH.
Qed.

Lemma drop_app_length base s : drop (String.length base) (base +:+ s) = s.
Proof. induction base as [|a base IH]; [by destruct s|]. by simpl. Qed.

(** A name made of a non-empty base and a temporary extension has that
    extension as its [suffix]. *)
Lemma suffix_of_temporary_name base ext :
  base ≠ "" → ext ∈ TEMPORARY_EXTENSIONS → suffix (base +:+ ext) = ext.
Proof.
  intros Hbase Hext.
  assert (∃ e, ext = String "." e ∧ rfind "." e = None ∧ e ≠ "")
    as (e & -> & He & Hne).
  { unfold TEMPORARY_EXTENSIONS in Hext.
    apply elem_of_union in Hext as [Hext|Hext];
      [apply elem_of_union in Hext as [Hext|Hext]|];
      apply elem_of_singleton in Hext; subst ext; eexists; done. }
  unfold suffix. rewrite (rfind_app_ext _ _ _ He).
  assert (has_suffix (base +:+ String "." e) (String.length base) = true)
    as ->.
  { apply bool_decide_eq_true. rewrite string_app_length. simpl.
    destruct base; [done|]. destruct e; [done|]. simpl. lia. }
  apply drop_app_length.
Qed.

(** ** The extension table *)

Lemma add_category_lookup_notin d category lst ext :
  ext ∉ lst → add_category d category lst !! ext = d !! ext.
Proof.
  revert d. induction lst as [|x lst IH]; intros d Hnotin; [done|].
  apply not_elem_of_cons in Hnotin as [Hne Hnotin].
  unfold add_category in *. simpl. rewrite IH by done.
  by rewrite lookup_insert_ne.
Qed.

Lemma add_category_lookup_in d category lst ext :
  ext ∈ lst → add_category d category lst !! ext = Some category.
Proof.
  revert d. induction lst as [|x lst IH]; intros d Hin.
  - by apply elem_of_nil in Hin.
  - unfold add_category in *. simpl.
    destruct (decide (ext ∈ lst)) as [Hin'|Hnotin]; [by apply IH|].
    apply elem_of_cons in Hin as [->|Hin]; [|done].
    pose proof (add_category_lookup_notin (<[x:=category]> d) category
                  lst x Hnotin) as Hl.
    unfold add_category in Hl. rewrite Hl. apply lookup_insert_eq.
Qed.

Lemma foldl_add_category_notin table acc ext :
  ext ∉ all_extensions table →
  foldl (λ a entry, add_category a entry.1 entry.2) acc table !! ext
  = acc !! ext.
Proof.
  revert acc. induction table as [|[c l] table IH]; intros acc Hnotin;
    [done|].
  unfold all_extensions in *. simpl in *.
  apply not_elem_of_app in Hnotin as [Hl Ht].
  rewrite IH by done. by apply add_category_lookup_notin.
Qed.

(** An extension outside the table is not a key of the dictionary. *)
Lemma generate_from_notin table ext :
  ext ∉ all_extensions table → generate_from table !! ext = None.
Proof.
  intros H. unfold generate_from.
  by rewrite foldl_add_category_notin.
Qed.

(** In a table that lists no extension twice, every extension is mapped
    to the category it is listed under. *)
Lemma generate_from_in table category lst ext :
  NoDup (all_extensions table) →
  (category, lst) ∈ table → ext ∈ lst →
  generate_from table !! ext = Some category.
Proof.
  unfold generate_from. generalize (∅ : gmap string string).
  induction table as [|[c l] table IH]; intros acc Hnd Hin Hext.
  - by apply elem_of_nil in Hin.
  - unfold all_extensions in *. simpl in *.
    apply NoDup_app in Hnd as (Hl & Hdisj & Ht).
    apply elem_of_cons in Hin as [Heq|Hin].
    + injection Heq as <- <-.
      rewrite foldl_add_category_notin by (by apply Hdisj).
      by apply add_category_lookup_in.
    + by apply IH.
Qed.

Lemma EXTENSIONS_NoDup : NoDup (all_extensions EXTENSIONS).
Proof. by_compute. Qed.

(** Every key of the table is in lower case. *)
Lemma EXTENSIONS_lower :
  Forall (λ ext, lower ext = ext) (all_extensions EXTENSIONS).
Proof. by_compute. Qed.

(** No temporary extension is a key of the table. *)
Lemma TEMPORARY_EXTENSIONS_not_in_table ext :
  ext ∈ TEMPORARY_EXTENSIONS → ext ∉ all_extensions EXTENSIONS.
Proof.
  unfold TEMPORARY_EXTENSIONS. intros Hext.
  apply elem_of_union in Hext as [Hext|Hext];
    [apply elem_of_union in Hext as [Hext|Hext]|];
    apply elem_of_singleton in Hext; subst ext;
    by_compute.
Qed.

(** An extension listed under a category resolves to it. *)
Lemma resolve_listed category lst ext :
  (category, lst) ∈ EXTENSIONS → ext ∈ lst → resolve ext = category.
Proof.
  intros Hin Hext. unfold resolve, generate_extension_dictionary.
  by rewrite (generate_from_in _ _ _ _ EXTENSIONS_NoDup Hin Hext).
Qed.

(** A string that is no key of the table resolves to "others". *)
Lemma resolve_unlisted s :
  s ∉ all_extensions EXTENSIONS → resolve s = "others".
Proof.
  intros Hs. unfold resolve, generate_extension_dictionary.
  by rewrite generate_from_notin.
Qed.

(** C8. Category resolution is total: [resolve] is a function on all
    strings, it returns the configured category for every extension
    listed in [EXTENSIONS] (no extension is listed twice), and the
    literal "others" for every other string. *)
Theorem resolve_table_or_others :
  (∀ category lst ext,
     (category, lst) ∈ EXTENSIONS → ext ∈ lst → resolve ext = category) ∧
  (∀ s, s ∉ all_extensions EXTENSIONS → resolve s = "others") ∧
  (∀ s, s ∈ all_extensions EXTENSIONS ∨ resolve s = "others").
Proof.
  split; [|split].
  - apply resolve_listed.
  - apply resolve_unlisted.
  - intros s. destruct (decide (s ∈ all_extensions EXTENSIONS)); [by left|].
    right. by apply resolve_unlisted.
Qed.

Lemma resolve_table_or_others_witness :
  resolve ".pdf" = "documents" ∧ resolve ".xyz" = "others".
Proof.
  split.
  - apply (proj1 resolve_table_or_others "documents"
             [".pdf"; ".doc"; ".docx"; ".txt"; ".xlsx"; ".ppt"; ".pptx";
              ".csv"; ".odt"; ".rtf"; ".epub"; ".odf"]).
    + by_compute.
    + by_compute.
  - apply (proj1 (proj2 resolve_table_or_others)).
    by_compute.
Defined.

(** ** Unfolding the monad *)

Lemma bind_unfold {A B} (m : M A) (k : A → M B) w :
  (m ≫= k) w
  = match m w with
    | (Return a, w') => k a w'
    | (Raise e, w') => (Raise e, w')
    | (Timeout, w') => (Timeout, w')
    end.
Proof. reflexivity. Qed.

(** A listed entry is dispatched when it is a regular file whose name
    does not start with a dot. *)
Lemma for_each_file_cons file rest has_files w :
  for_each_file (file :: rest) has_files w
  = if eligible w file
    then (move_file file (resolve (suffix file)) ;; for_each_file rest true) w
    else for_each_file rest has_files w.
Proof.
  cbn [for_each_file]. rewrite bind_unfold. unfold eligible, is_file, gets.
  destruct (entries (fs w) !! file) as [[c|dw kids]|];
    destruct (startswith "." file); reflexivity.
Qed.

(** C9. The lookup is case-sensitive: the suffix is looked up as it is,
    so a file whose suffix differs only in letter case from a (lower
    case) key of the table resolves to "others", and the scan hands it
    to [move_file] with the "others" directory. *)
Theorem case_sensitive_lookup file entry :
  entry ∈ all_extensions EXTENSIONS →
  lower (suffix file) = entry →
  suffix file ≠ entry →
  resolve (suffix file) = "others" ∧
  ∀ w c rest has_files,
    entries (fs w) !! file = Some (File c) →
    startswith "." file = false →
    for_each_file (file :: rest) has_files w
    = (move_file file "others" ;; for_each_file rest true) w.
Proof.
  intros Hentry Hlower Hne.
  assert (resolve (suffix file) = "others") as Hres.
  { apply resolve_unlisted. intros Hin.
    pose proof EXTENSIONS_lower as Hall.
    rewrite Forall_forall in Hall. specialize (Hall _ Hin). congruence. }
  split; [done|].
  intros w c rest has_files Hfile Hvisible.
  rewrite for_each_file_cons. unfold eligible.
  rewrite Hfile, Hvisible. simpl. by rewrite Hres.
Qed.

Lemma case_sensitive_lookup_witness :
  resolve (suffix "PHOTO.JPG") = "others" ∧ resolve ".jpg" = "images".
Proof.
  split; [|by_compute].
  apply (case_sensitive_lookup "PHOTO.JPG" ".jpg"); by_compute.
Defined.


(** ** The probing loop of [move_file] *)

Lemma name_limit_own file :
  bool_decide (name_limit file < String.length file)%nat = false.
Proof. apply bool_decide_eq_false_2. unfold name_limit. lia. Qed.

Lemma while_destination_exists_S budget file extension destination count w :
  while_destination_exists (S budget) file extension destination count w
  = if bool_decide (name_limit file < String.length destination)%nat
    then (Raise FileNameTooLong, w)
    else if exists_in (fs w) extension destination
    then while_destination_exists budget file extension
           (numbered file count) (S count) w
    else (Return destination, w).
Proof.
  cbn [while_destination_exists]. rewrite bind_unfold.
  unfold path_exists_in.
  destruct (bool_decide (name_limit file < String.length destination)%nat);
    [done|].
  by destruct (exists_in (fs w) extension destination).
Qed.

(** The loop only reads the state. *)
Lemma while_destination_exists_state budget file extension destination
    count w :
  (while_destination_exists budget file extension destination count w).2 = w.
Proof.
  revert destination count.
  induction budget as [|budget IH]; intros destination count; [done|].
  rewrite while_destination_exists_S.
  destruct (bool_decide (name_limit file < String.length destination)%nat);
    [done|].
  destruct (exists_in (fs w) extension destination); [apply IH|done].
Qed.

(** What the loop returns in a directory with entries [kids], which
    candidate stops it with [ENAMETOOLONG], and what it has seen when
    its budget runs out. *)
Lemma while_destination_exists_dir budget file extension destination count
    w dw kids :
  entries (fs w) !! extension = Some (Dir dw kids) →
  match (while_destination_exists budget file extension destination
           count w).1 with
  | Return d =>
      (1 ≤ budget)%nat ∧ kids !! d = None ∧
      (d = destination ∨
       ∃ n, (count ≤ n < count + (budget - 1))%nat ∧ d = numbered file n ∧
            is_Some (kids !! destination) ∧
            ∀ k, (count ≤ k < n)%nat → is_Some (kids !! numbered file k))
  | Raise e =>
      (1 ≤ budget)%nat ∧ e = FileNameTooLong ∧
      ((name_limit file < String.length destination)%nat ∨
       ∃ n, (count ≤ n < count + (budget - 1))%nat ∧
            (name_limit file < String.length (numbered file n))%nat ∧
            is_Some (kids !! destination) ∧
            ∀ k, (count ≤ k < n)%nat → is_Some (kids !! numbered file k))
  | Timeout =>
      budget = O ∨
      (is_Some (kids !! destination) ∧
       ∀ k, (count ≤ k < count + (budget - 1))%nat →
            is_Some (kids !! numbered file k))
  end.
Proof.
  intros Hdir. revert destination count.
  induction budget as [|budget IH]; intros destination count;
    [by left|].
  rewrite while_destination_exists_S.
  destruct (decide (name_limit file < String.length destination)%nat)
    as [Hlong|Hfit].
  { rewrite bool_decide_eq_true_2 by done. cbn [fst].
    split; [lia|]. split; [done|]. by left. }
  rewrite bool_decide_eq_false_2 by done.
  unfold exists_in. rewrite Hdir.
  destruct (kids !! destination) as [v|] eqn:Hdest.
  - rewrite bool_decide_eq_true_2 by eauto.
    specialize (IH (numbered file count) (S count)).
    destruct (while_destination_exists budget file extension
                (numbered file count) (S count) w).1 as [d|e|].
    + destruct IH as (Hb & Hfree & [->|(n & Hn & -> & Hsome & Hall)]).
      * split; [lia|]. split; [done|]. right. exists count.
        split; [lia|]. split; [done|]. split; [eauto|]. intros k Hk. lia.
      * split; [lia|]. split; [done|]. right. exists n.
        split; [lia|]. split; [done|]. split; [eauto|].
        intros k Hk. destruct (decide (k = count)) as [->|Hne]; [done|].
        apply Hall. lia.
    + destruct IH as (Hb & -> & [Hlong|(n & Hn & Hlong & Hsome & Hall)]).
      * split; [lia|]. split; [done|]. right. exists count.
        split; [lia|]. split; [done|]. split; [eauto|]. intros k Hk. lia.
      * split; [lia|]. split; [done|]. right. exists n.
        split; [lia|]. split; [done|]. split; [eauto|].
        intros k Hk. destruct (decide (k = count)) as [->|Hne]; [done|].
        apply Hall. lia.
    + right. split; [eauto|]. intros k Hk.
      destruct IH as [->|[Hsome Hall]]; [lia|].
      destruct (decide (k = count)) as [->|Hne]; [done|].
      apply Hall. lia.
  - rewrite bool_decide_eq_false_2 by (by intros [? ?]).
    cbn [fst]. split; [lia|]. split; [done|by left].
Qed.

(** In a directory, [size kids + 1] probes are enough: the plain name
    and the numbered candidates are pairwise different, so they cannot
    all be taken. The loop settles on the lowest free candidate, unless
    a numbered candidate it has to probe on the way is longer than the
    filesystem allows. *)
Lemma while_destination_exists_returns file extension w dw kids :
  entries (fs w) !! extension = Some (Dir dw kids) →
  (∃ d, while_destination_exists (S (size kids)) file extension file 1 w
        = (Return d, w) ∧ lowest_free kids file d) ∨
  (∃ n, stopped_by_length kids file n ∧
        while_destination_exists (S (size kids)) file extension file 1 w
        = (Raise FileNameTooLong, w)).
Proof.
  intros Hdir.
  pose proof (while_destination_exists_dir (S (size kids)) file extension
                file 1 w dw kids Hdir) as Hspec.
  pose proof (while_destination_exists_state (S (size kids)) file extension
                file 1 w) as Hstate.
  destruct (while_destination_exists (S (size kids)) file extension file 1 w)
    as [[d|e|] w'] eqn:Hrun; cbn [fst snd] in *; subst w'.
  - left. exists d. split; [done|].
    destruct Hspec as (_ & Hfree & [->|(n & Hn & -> & Hsome & Hall)]).
    + split; [done|by left].
    + split; [done|]. right. exists n.
      split; [lia|]. split; [done|]. split; [done|].
      intros k Hk. apply Hall. lia.
  - right. destruct Hspec as (_ & -> & [Hlong|(n & Hn & Hlong & Hsome & Hall)]).
    + unfold name_limit in Hlong. lia.
    + exists n. split; [|done]. split; [lia|]. split; [done|].
      split; [done|]. intros k Hk. apply Hall. lia.
  - exfalso. destruct Hspec as [?|[Hfile Hall]]; [done|].
    set (cands := file :: (numbered file <$> seq 1 (size kids))).
    assert (NoDup cands) as Hnd.
    { apply NoDup_cons. split.
      - intros Hin. apply list_elem_of_fmap in Hin as (k & Hk & _).
        symmetry in Hk. by apply numbered_ne_name in Hk.
      - apply NoDup_fmap_2; [apply numbered_inj|apply NoDup_seq]. }
    assert (list_to_set cands ⊆ dom kids) as Hsub.
    { intros x Hx. apply elem_of_list_to_set in Hx.
      apply elem_of_dom.
      apply elem_of_cons in Hx as [->|Hx]; [done|].
      apply list_elem_of_fmap in Hx as (k & -> & Hk).
      apply elem_of_seq in Hk. apply Hall. lia. }
    apply subseteq_size in Hsub.
    rewrite size_list_to_set in Hsub by done.
    rewrite size_dom in Hsub. unfold cands in Hsub. simpl in Hsub.
    rewrite length_fmap, length_seq in Hsub. lia.
Qed.

(** Outside a directory nothing exists, so the probe of the plain name
    ends the loop. *)
Lemma while_destination_exists_no_dir budget file extension count w :
  (∀ dw kids, entries (fs w) !! extension ≠ Some (Dir dw kids)) →
  while_destination_exists (S budget) file extension file count w
  = (Return file, w).
Proof.
  intros Hno. rewrite while_destination_exists_S, name_limit_own.
  unfold exists_in.
  destruct (entries (fs w) !! extension) as [[c|dw kids]|] eqn:Hext;
    try done.
  by destruct (Hno dw kids).
Qed.

(** When the plain name is free the loop needs one probe. *)
Lemma while_destination_exists_free budget file extension count w dw kids :
  entries (fs w) !! extension = Some (Dir dw kids) →
  kids !! file = None →
  while_destination_exists (S budget) file extension file count w
  = (Return file, w).
Proof.
  intros Hdir Hfree. rewrite while_destination_exists_S, name_limit_own.
  unfold exists_in. rewrite Hdir, Hfree.
  by rewrite bool_decide_eq_false_2 by (by intros [? ?]).
Qed.

(** A stop by length needs a numbered candidate over the limit among
    those the directory can make the loop probe. *)
Lemma candidates_fit_not_stopped kids file n :
  candidates_fit file (size kids) → stopped_by_length kids file n → False.
Proof.
  intros Hfit (Hn & Hlong & _). specialize (Hfit n Hn).
  unfold name_limit in Hlong. lia.
Qed.

(** The loop is stopped by the first numbered candidate that is too
    long, when everything before it is taken. *)
Lemma while_destination_exists_stopped n budget file extension destination
    count w dw kids :
  entries (fs w) !! extension = Some (Dir dw kids) →
  is_Some (kids !! destination) →
  (∀ k, (count ≤ k < n)%nat → is_Some (kids !! numbered file k)) →
  (count ≤ n)%nat →
  (name_limit file < String.length (numbered file n))%nat →
  (n - count + 2 ≤ budget)%nat →
  while_destination_exists budget file extension destination count w
  = (Raise FileNameTooLong, w).
Proof.
  intros Hdir. revert destination count.
  induction budget as [|budget IH]; intros destination count Hdest Hall Hn
    Hlong Hb; [lia|].
  rewrite while_destination_exists_S.
  destruct (bool_decide (name_limit file < String.length destination)%nat);
    [done|].
  unfold exists_in. rewrite Hdir.
  rewrite bool_decide_eq_true_2 by done.
  destruct (decide (count = n)) as [->|Hne].
  - destruct budget as [|budget]; [lia|].
    rewrite while_destination_exists_S.
    by rewrite bool_decide_eq_true_2 by done.
  - apply IH; [apply Hall; lia| |lia|done|lia].
    intros k Hk. apply Hall. lia.
Qed.


(** ** [move_file] on a regular file *)

(** Lines 56-62 when [root / extension] is a directory: the loop settles
    on the lowest free candidate and the move puts the file there, or
    the loop stops on a candidate that is too long and nothing is
    moved. *)
Lemma move_into_directory file extension w c dw kids :
  entries (fs w) !! file = Some (File c) →
  entries (fs w) !! extension = Some (Dir dw kids) →
  (∃ d, lowest_free kids file d ∧
    (probe_budget extension ≫= λ budget,
       while_destination_exists budget file extension file 1 ≫= λ destination,
         shutil_move file extension destination) w
    = if negb dw then (Raise PermissionError, w)
      else if writable (fs w)
      then (Return tt,
            with_entries (<[extension := Dir dw (<[d := LFile c]> kids)]>
                            (delete file (entries (fs w)))) w)
      else (Raise PermissionError,
            with_entries (<[extension := Dir dw (<[d := LFile c]> kids)]>
                            (entries (fs w))) w)) ∨
  (∃ n, stopped_by_length kids file n ∧
    (probe_budget extension ≫= λ budget,
       while_destination_exists budget file extension file 1 ≫= λ destination,
         shutil_move file extension destination) w
    = (Raise FileNameTooLong, w)).
Proof.
  intros Hfile Hext.
  destruct (while_destination_exists_returns file extension w dw kids Hext)
    as [(d & Hrun & Hfree)|(n & Hstop & Hrun)].
  - left. exists d. split; [done|].
    rewrite bind_unfold. unfold probe_budget, gets. rewrite Hext.
    rewrite bind_unfold, Hrun.
    unfold shutil_move. rewrite Hfile, Hext.
    destruct Hfree as [Hnone _]. by rewrite Hnone.
  - right. exists n. split; [done|].
    rewrite bind_unfold. unfold probe_budget, gets. rewrite Hext.
    by rewrite bind_unfold, Hrun.
Qed.

(** The [try] block on a regular file, case by case on what
    [root / extension] is. *)
Lemma move_file_try_absent file extension w c :
  entries (fs w) !! file = Some (File c) →
  entries (fs w) !! extension = None →
  move_file_try file extension w
  = if writable (fs w)
    then (Return tt,
          with_entries (<[extension := Dir true (<[file := LFile c]> ∅)]>
                          (delete file (entries (fs w)))) w)
    else (Raise PermissionError, w).
Proof.
  intros Hfile Hext.
  assert (file ≠ extension) as Hne by congruence.
  unfold move_file_try.
  rewrite bind_unfold. unfold path_exists, gets. rewrite Hext.
  rewrite bool_decide_eq_false_2 by (by intros [? ?]). cbn [negb].
  rewrite bind_unfold. unfold mkdir at 1. rewrite Hext.
  destruct (writable (fs w)) eqn:Hw; [|done].
  set (w1 := with_entries (<[extension:=Dir true ∅]> (entries (fs w))) w).
  destruct (move_into_directory file extension w1 c true ∅)
    as [(d & Hfree & ->)|(n & (_ & _ & [v Hv] & _) & _)].
  { unfold w1. cbn [with_entries with_fs fs entries].
    by rewrite lookup_insert_ne. }
  { unfold w1. cbn [with_entries with_fs fs entries].
    by rewrite lookup_insert_eq. }
  2: { by rewrite lookup_empty in Hv. }
  assert (d = file) as ->.
  { destruct Hfree as [_ [->|(n & _ & _ & [v Hv] & _)]]; [done|].
    by rewrite lookup_empty in Hv. }
  unfold w1. cbn [negb with_entries with_fs fs entries writable readable].
  rewrite Hw. rewrite delete_insert_ne by done.
  by rewrite insert_insert_eq.
Qed.

Lemma move_file_try_not_directory file extension w c c' :
  entries (fs w) !! file = Some (File c) →
  entries (fs w) !! extension = Some (File c') →
  move_file_try file extension w = (Raise NotADirectoryError, w).
Proof.
  intros Hfile Hext. unfold move_file_try.
  rewrite bind_unfold. unfold path_exists, gets. rewrite Hext.
  rewrite bool_decide_eq_true_2 by eauto. cbn [negb].
  rewrite bind_unfold. cbn.
  rewrite bind_unfold. unfold probe_budget, gets. rewrite Hext.
  rewrite bind_unfold.
  rewrite while_destination_exists_no_dir by (intros ??; congruence).
  unfold shutil_move. by rewrite Hfile, Hext.
Qed.

Lemma move_file_try_directory file extension w c dw kids :
  entries (fs w) !! file = Some (File c) →
  entries (fs w) !! extension = Some (Dir dw kids) →
  (∃ d, lowest_free kids file d ∧
    move_file_try file extension w
    = if negb dw then (Raise PermissionError, w)
      else if writable (fs w)
      then (Return tt,
            with_entries (<[extension := Dir dw (<[d := LFile c]> kids)]>
                            (delete file (entries (fs w)))) w)
      else (Raise PermissionError,
            with_entries (<[extension := Dir dw (<[d := LFile c]> kids)]>
                            (entries (fs w))) w)) ∨
  (∃ n, stopped_by_length kids file n ∧
    move_file_try file extension w = (Raise FileNameTooLong, w)).
Proof.
  intros Hfile Hext.
  assert (move_file_try file extension w
          = (probe_budget extension ≫= λ budget,
               while_destination_exists budget file extension file 1
                 ≫= λ destination,
                 shutil_move file extension destination) w) as ->.
  { unfold move_file_try.
    rewrite bind_unfold. unfold path_exists, gets. rewrite Hext.
    rewrite bool_decide_eq_true_2 by eauto. cbn [negb].
    by rewrite bind_unfold. }
  exact (move_into_directory file extension w c dw kids Hfile Hext).
Qed.

(** A candidate over the limit on the way to the lowest free one stops
    the [try] block before anything is moved. *)
Lemma move_file_try_stopped file extension w dw kids n :
  entries (fs w) !! extension = Some (Dir dw kids) →
  stopped_by_length kids file n →
  move_file_try file extension w = (Raise FileNameTooLong, w).
Proof.
  intros Hext (Hn & Hlong & Hfile & Hall). unfold move_file_try.
  rewrite bind_unfold. unfold path_exists, gets. rewrite Hext.
  rewrite bool_decide_eq_true_2 by eauto. cbn [negb].
  rewrite bind_unfold. cbn [mret M_ret].
  rewrite bind_unfold. unfold probe_budget, gets. rewrite Hext.
  rewrite bind_unfold.
  by rewrite (while_destination_exists_stopped n _ _ _ _ _ _ dw kids)
    by (done || lia).
Qed.

(** With the plain name free in the directory the [try] block needs no
    numbered candidate. *)
Lemma move_file_try_free file extension w c dw kids :
  entries (fs w) !! file = Some (File c) →
  entries (fs w) !! extension = Some (Dir dw kids) →
  kids !! file = None →
  move_file_try file extension w
  = if negb dw then (Raise PermissionError, w)
    else if writable (fs w)
    then (Return tt,
          with_entries (<[extension := Dir dw (<[file := LFile c]> kids)]>
                          (delete file (entries (fs w)))) w)
    else (Raise PermissionError,
          with_entries (<[extension := Dir dw (<[file := LFile c]> kids)]>
                          (entries (fs w))) w).
Proof.
  intros Hfile Hext Hfree.
  destruct (move_file_try_directory _ _ _ _ _ _ Hfile Hext)
    as [(d & Hlow & ->)|(n & (_ & _ & [v Hv] & _) & _)]; [|congruence].
  destruct Hlow as [_ [->|(n & _ & _ & [v Hv] & _)]]; [done|congruence].
Qed.


Lemma move_file_of_try file extension w :
  move_file file extension w
  = match move_file_try file extension w with
    | (Raise e, w1) => (Return tt, printed (MsgCannotMove e) w1)
    | r => r
    end.
Proof.
  unfold move_file, try_except.
  by destruct (move_file_try file extension w) as [[[]|e|] w1].
Qed.

(** [move_file] on a regular file either relocates it to the lowest
    free candidate of a writable category directory, or prints one
    diagnostic; in the latter case the root is as before, except that a
    read-only root keeps the source next to the copy already made. *)
Lemma move_file_regular file extension w c :
  entries (fs w) !! file = Some (File c) →
  (∃ kids d,
     writable (fs w) = true ∧ category_dir w extension kids ∧
     lowest_free kids file d ∧
     move_file file extension w
     = (Return tt,
        with_entries (<[extension := Dir true (<[d := LFile c]> kids)]>
                        (delete file (entries (fs w)))) w)) ∨
  (∃ e w1,
     move_file_try file extension w = (Raise e, w1) ∧
     move_file file extension w = (Return tt, printed (MsgCannotMove e) w1) ∧
     (w1 = w ∨
      ∃ kids d,
        entries (fs w) !! extension = Some (Dir true kids) ∧
        lowest_free kids file d ∧
        w1 = with_entries (<[extension := Dir true (<[d := LFile c]> kids)]>
                             (entries (fs w))) w)).
Proof.
  intros Hfile. rewrite move_file_of_try.
  destruct (entries (fs w) !! extension) as [[c'|dw kids]|] eqn:Hext.
  - right. rewrite (move_file_try_not_directory _ _ _ _ _ Hfile Hext).
    eauto 10.
  - destruct (move_file_try_directory _ _ _ _ _ _ Hfile Hext)
      as [(d & Hfree & ->)|(n & _ & ->)]; [|right; eauto 10].
    destruct dw; cbn [negb]; [|right; eauto 10].
    destruct (writable (fs w)) eqn:Hw.
    + left. exists kids, d.
      split; [done|]. split; [by right|]. by split.
    + right. eauto 12.
  - rewrite (move_file_try_absent _ _ _ _ Hfile Hext).
    destruct (writable (fs w)) eqn:Hw; [|right; eauto 10].
    left. exists ∅, file.
    split; [done|]. split; [by left|]. split; [|done].
    split; [apply lookup_empty|by left].
Qed.

(** ** Same-named files dispatched one after the other *)

Lemma nth_name_inj file i j : nth_name file i = nth_name file j → i = j.
Proof.
  destruct i as [|i], j as [|j]; simpl; intros H.
  - done.
  - symmetry in H. by apply numbered_ne_name in H.
  - by apply numbered_ne_name in H.
  - by apply numbered_inj in H.
Qed.

(** When the first [i] names of the series are taken and the [i]-th is
    free, the lowest free candidate is the [i]-th name. *)
Lemma lowest_free_series file kids i d :
  (∀ j, (j < i)%nat → is_Some (kids !! nth_name file j)) →
  kids !! nth_name file i = None →
  lowest_free kids file d →
  d = nth_name file i.
Proof.
  intros Htaken Hfree [Hnone [->|(n & Hn & -> & Hfile & Hall)]].
  - destruct i as [|i]; [done|].
    destruct (Htaken O) as [v Hv]; [lia|]. simpl in Hv. congruence.
  - assert (numbered file n = nth_name file n) as Hname
      by (destruct n; [lia|done]).
    destruct (lt_eq_lt_dec n i) as [[Hlt | ->] | Hgt]; [| done |].
    + destruct (Htaken n Hlt) as [v Hv]. congruence.
    + destruct i as [|i].
      * destruct Hfile as [v Hv]. simpl in Hfree. congruence.
      * destruct (Hall (S i)) as [v Hv]; [lia|]. simpl in Hfree. congruence.
Qed.

(** In the same situation the loop is not stopped after the [i]-th
    name. *)
Lemma stopped_by_length_series file kids i n :
  (∀ j, (i ≤ j)%nat → kids !! nth_name file j = None) →
  stopped_by_length kids file n →
  (1 ≤ n ≤ i)%nat ∧ numbered file n = nth_name file n.
Proof.
  intros Hfree (Hn & _ & [v Hv] & Hall).
  assert (numbered file n = nth_name file n) as Hname
    by (destruct n; [lia|done]).
  split; [|done]. split; [lia|].
  destruct (le_lt_dec n i) as [Hle|Hlt]; [done|]. exfalso.
  destruct i as [|i].
  - specialize (Hfree O). cbn [nth_name] in Hfree.
    rewrite Hfree in Hv; [done|lia].
  - destruct (Hall (S i)) as [v' Hv']; [lia|].
    specialize (Hfree (S i)). cbn [nth_name] in Hfree.
    rewrite Hfree in Hv'; [done|lia].
Qed.

Lemma dispatch_each_cons file extension c rest w :
  dispatch_each file extension (c :: rest) w
  = match move_file file extension
            (with_entries (<[file := File c]> (entries (fs w))) w) with
    | (Return _, w1) => dispatch_each file extension rest w1
    | (Raise e, w1) => (Raise e, w1)
    | (Timeout, w1) => (Timeout, w1)
    end.
Proof.
  cbn [dispatch_each]. rewrite bind_unfold. unfold arrive_file, modify.
  rewrite bind_unfold.
  by destruct (move_file file extension _) as [[[]|e|] w1].
Qed.

Lemma dispatch_each_series file extension cs :
  file ≠ extension →
  ∀ i w kids,
    writable (fs w) = true →
    (entries (fs w) !! extension = Some (Dir true kids) ∨
     (i = O ∧ entries (fs w) !! extension = None ∧ kids = ∅)) →
    (∀ j, (j < i)%nat → is_Some (kids !! nth_name file j)) →
    (∀ j, (i ≤ j)%nat → kids !! nth_name file j = None) →
    (∀ j, (j < i + length cs)%nat →
          (String.length (nth_name file j) ≤ NAME_MAX)%nat) →
    cs ≠ [] →
    ∃ w' kids',
      dispatch_each file extension cs w = (Return tt, w') ∧
      entries (fs w') !! extension = Some (Dir true kids') ∧
      entries (fs w') !! file = None ∧
      out w' = out w ∧
      (∀ j c, cs !! j = Some c →
              kids' !! nth_name file (i + j) = Some (LFile c)) ∧
      (∀ k v, kids !! k = Some v → kids' !! k = Some v) ∧
      (∀ k, is_Some (kids' !! k) →
            is_Some (kids !! k) ∨
            ∃ j, (j < length cs)%nat ∧ k = nth_name file (i + j)).
Proof.
  intros Hne. induction cs as [|c rest IH]; intros i w kids Hw Hdir Htaken
    Hfree Hfit Hcs; [done|].
  rewrite dispatch_each_cons.
  set (w0 := with_entries (<[file := File c]> (entries (fs w))) w).
  assert (entries (fs w0) !! file = Some (File c)) as Hfile
    by (unfold w0; cbn; apply lookup_insert_eq).
  assert (category_dir w0 extension kids) as Hcat.
  { unfold category_dir, w0. cbn. rewrite lookup_insert_ne by done.
    destruct Hdir as [?|(_ & ? & ?)]; [by right|by left]. }
  destruct (move_file_regular file extension w0 c Hfile)
    as [(kids0 & d & _ & Hcat0 & Hlow & ->)|(e & w1 & Htry & _ & _)].
  2:{ exfalso. clear IH.
      destruct Hcat as [[Hnone ->]|Hsome].
      - rewrite (move_file_try_absent _ _ _ _ Hfile Hnone) in Htry.
        unfold w0 in Htry. cbn in Htry. by rewrite Hw in Htry.
      - destruct (move_file_try_directory _ _ _ _ _ _ Hfile Hsome)
          as [(d & _ & Hrun)|(n & Hstop & _)].
        + rewrite Hrun in Htry.
          unfold w0 in Htry. cbn in Htry. by rewrite Hw in Htry.
        + destruct (stopped_by_length_series _ _ _ _ Hfree Hstop)
            as [Hn Hname].
          destruct Hstop as (_ & Hlong & _). rewrite Hname in Hlong.
          specialize (Hfit n). cbn [length] in Hfit.
          unfold name_limit in Hlong. lia. }
  assert (kids0 = kids) as ->.
  { destruct Hcat as [[? ->]|?], Hcat0 as [[? ->]|?]; congruence. }
  assert (d = nth_name file i) as ->
    by (eapply lowest_free_series; eauto).
  set (kids1 := <[nth_name file i := LFile c]> kids).
  set (w1 := with_entries _ w0).
  assert (entries (fs w1) !! extension = Some (Dir true kids1)) as Hext1
    by (unfold w1; cbn; apply lookup_insert_eq).
  assert (entries (fs w1) !! file = None) as Hfile1.
  { unfold w1. cbn. rewrite lookup_insert_ne by done.
    apply lookup_delete_eq. }
  assert (∀ k v, kids !! k = Some v → kids1 !! k = Some v) as Hkeep.
  { intros k v Hk. unfold kids1. rewrite lookup_insert_ne; [done|].
    intros <-. rewrite Hfree in Hk; [done|lia]. }
  destruct rest as [|c' rest'].
  - exists w1, kids1. cbn [dispatch_each mret M_ret].
    repeat split; try done.
    + intros [|j] c0 Hj; [|done]. injection Hj as <-.
      rewrite Nat.add_0_r. unfold kids1. apply lookup_insert_eq.
    + intros k Hk. unfold kids1 in Hk.
      destruct (decide (k = nth_name file i)) as [->|Hk'].
      * right. exists O. split; [simpl; lia|]. by rewrite Nat.add_0_r.
      * left. by rewrite lookup_insert_ne in Hk.
  - destruct (IH (S i) w1 kids1) as (w' & kids' & Hrun & Hext' & Hfile' &
      Hout & Hnames & Hkeep' & Hdom); [done|by left| | | |done|].
    { intros j Hj. unfold kids1.
      destruct (decide (j = i)) as [->|Hji].
      - rewrite lookup_insert_eq. eauto.
      - rewrite lookup_insert_ne by (intros ?%nth_name_inj; done).
        apply Htaken. lia. }
    { intros j Hj. unfold kids1.
      rewrite lookup_insert_ne by (intros ?%nth_name_inj; lia).
      apply Hfree. lia. }
    { intros j Hj. apply Hfit. cbn [length] in *. lia. }
    exists w', kids'. repeat split; try done.
    + intros [|j] c0 Hj.
      * injection Hj as <-. rewrite Nat.add_0_r. apply Hkeep'.
        unfold kids1. apply lookup_insert_eq.
      * replace (i + S j)%nat with (S i + j)%nat by lia. by apply Hnames.
    + intros k v Hk. by apply Hkeep', Hkeep.
    + intros k Hk. destruct (Hdom k Hk) as [Hk1|(j & Hj & ->)].
      * unfold kids1 in Hk1.
        destruct (decide (k = nth_name file i)) as [->|Hk'].
        -- right. exists O. split; [simpl; lia|]. by rewrite Nat.add_0_r.
        -- left. by rewrite lookup_insert_ne in Hk1.
      * right. exists (S j). split; [simpl in *; lia|].
        f_equal. lia.
Qed.


(** ** Exceptions stay inside [move_file] *)

Lemma shutil_move_no_timeout src d dst w :
  (shutil_move src d dst w).1 ≠ Timeout.
Proof.
  unfold shutil_move.
  destruct (entries (fs w) !! src) as [[c|dw kids]|];
    destruct (entries (fs w) !! d) as [[c'|dw' kids']|]; try done.
  - by destruct (negb dw'), (writable (fs w)).
  - by destruct (bool_decide (src = d)), (dw' && writable (fs w)).
Qed.

(** The tail of the [try] block, from the loop on, never runs out of
    budget. *)
Lemma move_file_tail_no_timeout file extension w :
  ((probe_budget extension ≫= λ budget,
      while_destination_exists budget file extension file 1 ≫= λ destination,
        shutil_move file extension destination) w).1 ≠ Timeout.
Proof.
  rewrite bind_unfold. unfold probe_budget, gets.
  destruct (entries (fs w) !! extension) as [[c|dw kids]|] eqn:Hext.
  - rewrite bind_unfold.
    rewrite while_destination_exists_no_dir by (intros ??; congruence).
    apply shutil_move_no_timeout.
  - rewrite bind_unfold.
    destruct (while_destination_exists_returns file extension w dw kids Hext)
      as [(d & -> & _)|(n & _ & ->)]; [|done].
    apply shutil_move_no_timeout.
  - rewrite bind_unfold.
    rewrite while_destination_exists_no_dir by (intros ??; congruence).
    apply shutil_move_no_timeout.
Qed.

Lemma move_file_try_no_timeout file extension w :
  (move_file_try file extension w).1 ≠ Timeout.
Proof.
  unfold move_file_try. rewrite bind_unfold. unfold path_exists, gets.
  destruct (bool_decide (is_Some (entries (fs w) !! extension))); cbn [negb].
  - rewrite bind_unfold. cbn [mret M_ret].
    apply move_file_tail_no_timeout.
  - rewrite bind_unfold. unfold mkdir at 1.
    destruct (entries (fs w) !! extension) as [[c|dw kids]|]; try done.
    + apply move_file_tail_no_timeout.
    + destruct (writable (fs w)); [|done].
      apply move_file_tail_no_timeout.
Qed.

(** [move_file] returns normally from every state, for every pair of
    arguments. *)
Lemma move_file_returns file extension w :
  ∃ w', move_file file extension w = (Return tt, w').
Proof.
  rewrite move_file_of_try.
  pose proof (move_file_try_no_timeout file extension w) as Hno.
  destruct (move_file_try file extension w) as [[[]|e|] w1]; by eauto.
Qed.

Lemma for_each_file_returns l has_files w :
  ∃ b w', for_each_file l has_files w = (Return b, w').
Proof.
  revert has_files w. induction l as [|file rest IH]; intros has_files w.
  - by exists has_files, w.
  - rewrite for_each_file_cons. destruct (eligible w file); [|apply IH].
    rewrite bind_unfold.
    destruct (move_file_returns file (resolve (suffix file)) w) as [w1 ->].
    apply IH.
Qed.

(** The loop over a listing is the loop over its first part followed by
    the loop over the rest, started where the first part ended. *)
Lemma for_each_file_app l1 l2 has_files w :
  for_each_file (l1 ++ l2) has_files w
  = (for_each_file l1 has_files ≫= for_each_file l2) w.
Proof.
  revert has_files w. induction l1 as [|file rest IH]; intros has_files w.
  - by rewrite bind_unfold.
  - rewrite <- app_comm_cons, bind_unfold, !for_each_file_cons.
    destruct (eligible w file).
    + rewrite !bind_unfold.
      destruct (move_file_returns file (resolve (suffix file)) w) as [w1 ->].
      by rewrite IH, bind_unfold.
    + by rewrite IH, bind_unfold.
Qed.

Lemma orgnanize_files_on_returns l w :
  ∃ w', orgnanize_files_on l w = (Return tt, w').
Proof.
  unfold orgnanize_files_on. rewrite bind_unfold.
  destruct (for_each_file_returns l false w) as (b & w1 & ->).
  destruct b; cbn [negb]; [by exists w1|].
  by exists (printed MsgNoFiles w1).
Qed.

(** The world once [orgnanize_files] has been entered. *)
Lemma orgnanize_files_unfold w :
  orgnanize_files w
  = let w0 := mk_world (fs w) (now w) (out w) (handler w) (probes w)
                (S (scans w)) in
    if readable (fs w)
    then orgnanize_files_on ((map_to_list (entries (fs w))).*1) w0
    else (Raise PermissionError, w0).
Proof.
  unfold orgnanize_files. rewrite bind_unfold. unfold modify.
  rewrite bind_unfold. unfold iterdir. cbn [fs].
  by destruct (readable (fs w)).
Qed.

(** C3, as the code has it. Same-named files in one category
    directory, for names whose candidates the filesystem takes (at most
    [NAME_MAX] bytes). A single dispatch into a writable directory puts
    the file at the lowest free candidate (the plain name, then
    [stem(1)suffix], [stem(2)suffix], ...) and changes no entry that
    was there; when a numbered candidate on the way to the lowest free
    one is too long, the dispatch prints its diagnostic and changes
    nothing. Dispatching the files [cs] one after the other, into a
    directory that holds none of the candidate names (or is created by
    the first dispatch), leaves the [i]-th file under the [i]-th name
    [name], [name(1)], ...; the names are pairwise different, every
    earlier entry is kept, and nothing else appears. *)
Theorem same_name_series file extension :
  file ≠ extension →
  (∀ w c kids,
     entries (fs w) !! file = Some (File c) →
     writable (fs w) = true →
     entries (fs w) !! extension = Some (Dir true kids) →
     candidates_fit file (size kids) →
     ∃ d, lowest_free kids file d ∧
          move_file file extension w
          = (Return tt,
             with_entries (<[extension := Dir true (<[d := LFile c]> kids)]>
                             (delete file (entries (fs w)))) w)) ∧
  (∀ w dw kids n,
     entries (fs w) !! extension = Some (Dir dw kids) →
     stopped_by_length kids file n →
     move_file file extension w
     = (Return tt, printed (MsgCannotMove FileNameTooLong) w)) ∧
  (∀ cs w kids,
     cs ≠ [] →
     writable (fs w) = true →
     category_dir w extension kids →
     (∀ i, kids !! nth_name file i = None) →
     (∀ i, (i < length cs)%nat →
           (String.length (nth_name file i) ≤ NAME_MAX)%nat) →
     ∃ w' kids',
       dispatch_each file extension cs w = (Return tt, w') ∧
       entries (fs w') !! extension = Some (Dir true kids') ∧
       out w' = out w ∧
       (∀ i c, cs !! i = Some c → kids' !! nth_name file i = Some (LFile c)) ∧
       (∀ i j, nth_name file i = nth_name file j → i = j) ∧
       (∀ k v, kids !! k = Some v → kids' !! k = Some v) ∧
       (∀ k, is_Some (kids' !! k) →
             is_Some (kids !! k) ∨
             ∃ i, (i < length cs)%nat ∧ k = nth_name file i)).
Proof.
  intros Hne. split; [|split].
  - intros w c kids Hfile Hw Hext Hfit.
    destruct (move_file_try_directory _ _ _ _ _ _ Hfile Hext)
      as [(d & Hfree & Hrun)|(n & Hstop & _)].
    + exists d. split; [done|].
      rewrite move_file_of_try, Hrun. cbn [negb]. by rewrite Hw.
    + destruct (candidates_fit_not_stopped _ _ _ Hfit Hstop).
  - intros w dw kids n Hext Hstop.
    by rewrite move_file_of_try, (move_file_try_stopped _ _ _ _ _ _ Hext Hstop).
  - intros cs w kids Hcs Hw Hcat Hfree Hfit.
    destruct (dispatch_each_series file extension cs Hne O w kids)
      as (w' & kids' & Hrun & Hext & _ & Hout & Hnames & Hkeep & Hdom);
      try done.
    { destruct Hcat as [[? ?]|?]; [by right|by left]. }
    { intros j Hj. lia. }
    exists w', kids'. repeat split; try done.
    intros i j. apply nth_name_inj.
Qed.

Lemma same_name_series_witness :
  ∃ w' kids',
    dispatch_each "a.txt" "documents"
      [bytes_of "one"; bytes_of "two"; bytes_of "three"]
      (started ∅ true true 0 100) = (Return tt, w') ∧
    entries (fs w') !! "documents" = Some (Dir true kids') ∧
    kids' !! "a.txt" = Some (LFile (bytes_of "one")) ∧
    kids' !! "a(1).txt" = Some (LFile (bytes_of "two")) ∧
    kids' !! "a(2).txt" = Some (LFile (bytes_of "three")).
Proof.
  assert ("a.txt" ≠ "documents") as Hne by discriminate.
  assert (nth_name "a.txt" 1 = "a(1).txt") as H1 by (vm_compute; reflexivity).
  assert (nth_name "a.txt" 2 = "a(2).txt") as H2 by (vm_compute; reflexivity).
  destruct (proj2 (proj2 (same_name_series "a.txt" "documents" Hne))
              [bytes_of "one"; bytes_of "two"; bytes_of "three"]
              (started ∅ true true 0 100) ∅)
    as (w' & kids' & Hrun & Hext & _ & Hnames & _).
  - discriminate.
  - reflexivity.
  - left. split; reflexivity.
  - intros i. apply lookup_empty.
  - intros i Hi. unfold NAME_MAX.
    destruct i as [|[|[|i]]]; [|rewrite H1|rewrite H2|];
      cbn [length String.length nth_name] in *; lia.
  - exists w', kids'. split; [exact Hrun|]. split; [exact Hext|].
    split; [exact (Hnames 0%nat _ eq_refl)|].
    rewrite <- H1, <- H2.
    split; [exact (Hnames 1%nat _ eq_refl)|exact (Hnames 2%nat _ eq_refl)].
Defined.

(** C3 as stated fails for a name at the limit of the filesystem: the
    second file called [long_name] (255 bytes) finds the plain name
    taken, the candidate [stem(1)suffix] has 258 bytes, the probe raises
    [ENAMETOOLONG], and the file stays in the root with a diagnostic. *)
Lemma long_name_is_dispatched_once :
  let r := dispatch_each long_name "documents"
             [bytes_of "one"; bytes_of "two"] (started ∅ true true 0 100) in
  String.length long_name = 255%nat ∧
  String.length (nth_name long_name 1) = 258%nat ∧
  r.1 = Return tt ∧
  entries (fs r.2) !! long_name = Some (File (bytes_of "two")) ∧
  entries (fs r.2) !! "documents"
  = Some (Dir true {[ long_name := LFile (bytes_of "one") ]}) ∧
  out r.2 = [MsgCannotMove FileNameTooLong].
Proof. repeat split; vm_compute; reflexivity. Qed.

(** C7, as the code has it. No exception raised inside [move_file]
    reaches its caller: whatever [mkdir] or the move raise is caught,
    one diagnostic is printed, and [move_file] returns. The loop of
    [orgnanize_files] therefore returns for every listing, and handles
    the rest of a listing in the state its first part left, whatever
    failed there. The listing itself is taken outside any [try]:
    [orgnanize_files] returns when the root can be listed and raises
    [PermissionError] when it cannot. *)
Theorem dispatch_failures_are_contained :
  (∀ file extension w,
     ∃ w', move_file file extension w = (Return tt, w') ∧
           ∀ e w1, move_file_try file extension w = (Raise e, w1) →
                   w' = printed (MsgCannotMove e) w1) ∧
  (∀ l has_files w, ∃ b w', for_each_file l has_files w = (Return b, w')) ∧
  (∀ l1 l2 has_files w,
     for_each_file (l1 ++ l2) has_files w
     = (for_each_file l1 has_files ≫= for_each_file l2) w) ∧
  (∀ l w, ∃ w', orgnanize_files_on l w = (Return tt, w')) ∧
  (∀ w, readable (fs w) = true → ∃ w', orgnanize_files w = (Return tt, w')) ∧
  (∀ w, readable (fs w) = false →
        (orgnanize_files w).1 = Raise PermissionError).
Proof.
  split; [|split; [|split; [|split; [|split]]]].
  - intros file extension w.
    destruct (move_file_returns file extension w) as [w' Hrun].
    exists w'. split; [done|]. intros e w1 Htry.
    rewrite move_file_of_try, Htry in Hrun. by injection Hrun as <-.
  - apply for_each_file_returns.
  - apply for_each_file_app.
  - apply orgnanize_files_on_returns.
  - intros w Hr. rewrite orgnanize_files_unfold. cbn zeta. rewrite Hr.
    apply orgnanize_files_on_returns.
  - intros w Hr. rewrite orgnanize_files_unfold. cbn zeta. by rewrite Hr.
Qed.

(** A root in which a regular file called "images" blocks the category
    directory of "a.jpg": the dispatch of "a.jpg" fails, the diagnostic
    is printed, and [move_file] returns. *)
Lemma dispatch_failures_are_contained_witness :
  ∃ w', move_file "a.jpg" "images"
          (started (<["a.jpg" := File (bytes_of "x")]>
                      (<["images" := File (bytes_of "y")]> ∅))
             true true 0 100) = (Return tt, w') ∧
        out w' = [MsgCannotMove NotADirectoryError].
Proof.
  destruct (proj1 dispatch_failures_are_contained "a.jpg" "images"
              (started (<["a.jpg" := File (bytes_of "x")]>
                          (<["images" := File (bytes_of "y")]> ∅))
                 true true 0 100)) as (w' & Hrun & Hdiag).
  exists w'. split; [exact Hrun|].
  rewrite (Hdiag NotADirectoryError
             (started (<["a.jpg" := File (bytes_of "x")]>
                         (<["images" := File (bytes_of "y")]> ∅))
                true true 0 100)); [reflexivity|].
  vm_compute. reflexivity.
Defined.

(** C7 as stated fails: with a root that cannot be listed, [iterdir]
    raises inside [orgnanize_files], and the exception leaves both the
    scan and the event handler that called it. *)
Lemma listing_failure_propagates :
  let w := started (<["a.pdf" := File (bytes_of "x")]> ∅) false true 0 100 in
  (orgnanize_files w).1 = Raise PermissionError ∧
  (on_created quiet (mk_event false "a.pdf") w).1 = Raise PermissionError.
Proof. split; vm_compute; reflexivity. Qed.


(** ** What a scan does to the root *)

Lemma move_file_succeeds file extension w c kids :
  entries (fs w) !! file = Some (File c) →
  writable (fs w) = true →
  category_dir w extension kids →
  candidates_fit file (size kids) →
  ∃ d, lowest_free kids file d ∧
       move_file file extension w
       = (Return tt,
          with_entries (<[extension := Dir true (<[d := LFile c]> kids)]>
                          (delete file (entries (fs w)))) w).
Proof.
  intros Hfile Hw [[Hnone ->]|Hdir] Hfit; rewrite move_file_of_try.
  - rewrite (move_file_try_absent _ _ _ _ Hfile Hnone), Hw.
    exists file. split; [|done]. split; [apply lookup_empty|by left].
  - destruct (move_file_try_directory _ _ _ _ _ _ Hfile Hdir)
      as [(d & Hfree & ->)|(n & Hstop & _)].
    + exists d. split; [done|]. cbn [negb]. by rewrite Hw.
    + destruct (candidates_fit_not_stopped _ _ _ Hfit Hstop).
Qed.

(** The same with the plain name free: no numbered candidate is
    probed. *)
Lemma move_file_to_plain_name file extension w c kids :
  entries (fs w) !! file = Some (File c) →
  writable (fs w) = true →
  category_dir w extension kids →
  kids !! file = None →
  move_file file extension w
  = (Return tt,
     with_entries (<[extension := Dir true (<[file := LFile c]> kids)]>
                     (delete file (entries (fs w)))) w).
Proof.
  intros Hfile Hw [[Hnone ->]|Hdir] Hfree; rewrite move_file_of_try.
  - by rewrite (move_file_try_absent _ _ _ _ Hfile Hnone), Hw.
  - rewrite (move_file_try_free _ _ _ _ _ _ Hfile Hdir Hfree).
    cbn [negb]. by rewrite Hw.
Qed.

Lemma failures_printed msg w :
  failures (printed msg w)
  = (failures w + if is_failure msg then 1 else 0)%nat.
Proof.
  unfold failures, printed, print, modify. cbn [snd out].
  rewrite filter_app, length_app. f_equal.
  destruct msg; reflexivity.
Qed.

Lemma evolves_refl w : evolves w w.
Proof. split; [done|]. split; [|done]. intros n dw kids H. eauto. Qed.

Lemma evolves_trans w1 w2 w3 : evolves w1 w2 → evolves w2 w3 → evolves w1 w3.
Proof.
  intros (Hf1 & Hd1 & Hn1) (Hf2 & Hd2 & Hn2). split; [|split].
  - intros n c H. by apply Hf1, Hf2.
  - intros n dw kids H.
    destruct (Hd1 _ _ _ H) as (kids2 & H2 & Hsub2).
    destruct (Hd2 _ _ _ H2) as (kids3 & H3 & Hsub3).
    exists kids3. split; [done|]. by etrans.
  - lia.
Qed.

Lemma evolves_printed msg w : evolves w (printed msg w).
Proof.
  split; [done|]. split; [intros n dw kids H; eauto|].
  rewrite failures_printed. lia.
Qed.

(** Relocating [file] to a free name of its category directory. *)
Lemma evolves_relocate file extension w c kids d :
  entries (fs w) !! file = Some (File c) →
  category_dir w extension kids →
  kids !! d = None →
  evolves w
    (with_entries (<[extension := Dir true (<[d := LFile c]> kids)]>
                     (delete file (entries (fs w)))) w).
Proof.
  intros Hfile Hcat Hfree.
  split; [|split; [|done]]; cbn [with_entries with_fs fs entries].
  - intros n c' Hn.
    destruct (decide (n = extension)) as [->|Hne].
    { by rewrite lookup_insert_eq in Hn. }
    rewrite lookup_insert_ne in Hn by done.
    by apply lookup_delete_Some in Hn as [_ Hn].
  - intros n dw kids0 Hn.
    destruct (decide (n = extension)) as [->|Hne].
    + rewrite lookup_insert_eq.
      destruct Hcat as [[Hnone _]|Hdir]; [congruence|].
      rewrite Hdir in Hn. injection Hn as <- <-.
      eexists. split; [done|]. by apply insert_subseteq.
    + rewrite lookup_insert_ne by done.
      rewrite lookup_delete_ne by congruence. eauto.
Qed.

(** One dispatch of a regular file, whether it succeeds or fails. *)
Lemma move_file_evolves file extension w w1 c :
  entries (fs w) !! file = Some (File c) →
  move_file file extension w = (Return tt, w1) →
  evolves w w1.
Proof.
  intros Hfile Hrun.
  destruct (move_file_regular file extension w c Hfile)
    as [(kids & d & _ & Hcat & [Hfree _] & Hrun')
       |(e & w0 & _ & Hrun' & Hw0)];
    rewrite Hrun' in Hrun; injection Hrun as <-.
  - by apply evolves_relocate.
  - eapply evolves_trans; [|apply evolves_printed].
    destruct Hw0 as [->|(kids & d & Hdir & [Hfree _] & ->)];
      [apply evolves_refl|].
    split; [|split; [|done]]; cbn [with_entries with_fs fs entries].
    + intros n c' Hn.
      destruct (decide (n = extension)) as [->|Hne].
      { by rewrite lookup_insert_eq in Hn. }
      by rewrite lookup_insert_ne in Hn.
    + intros n dw kids0 Hn.
      destruct (decide (n = extension)) as [->|Hne].
      * rewrite lookup_insert_eq. rewrite Hdir in Hn.
        injection Hn as <- <-.
        eexists. split; [done|]. by apply insert_subseteq.
      * rewrite lookup_insert_ne by done. eauto.
Qed.

Lemma eligible_regular w file :
  eligible w file = true →
  ∃ c, entries (fs w) !! file = Some (File c) ∧ startswith "." file = false.
Proof.
  unfold eligible. intros H. apply andb_true_iff in H as [Hf Hv].
  destruct (entries (fs w) !! file) as [[c|dw kids]|]; try done.
  exists c. split; [done|]. by destruct (startswith "." file).
Qed.

Lemma for_each_file_evolves l has_files w b w' :
  for_each_file l has_files w = (Return b, w') → evolves w w'.
Proof.
  revert has_files w. induction l as [|file rest IH]; intros has_files w Hrun.
  - injection Hrun as _ <-. apply evolves_refl.
  - rewrite for_each_file_cons in Hrun.
    destruct (eligible w file) eqn:Hel; [|by eapply IH].
    apply eligible_regular in Hel as (c & Hfile & _).
    rewrite bind_unfold in Hrun.
    destruct (move_file_returns file (resolve (suffix file)) w)
      as [w1 Hstep].
    rewrite Hstep in Hrun.
    eapply evolves_trans; [by eapply move_file_evolves|by eapply IH].
Qed.

(** A dispatch that prints no diagnostic has relocated the file. *)
Lemma move_file_quiet file extension w w1 c :
  entries (fs w) !! file = Some (File c) →
  move_file file extension w = (Return tt, w1) →
  failures w1 = failures w →
  ∃ kids d,
    category_dir w extension kids ∧ kids !! d = None ∧
    w1 = with_entries (<[extension := Dir true (<[d := LFile c]> kids)]>
                         (delete file (entries (fs w)))) w.
Proof.
  intros Hfile Hrun Hquiet.
  destruct (move_file_regular file extension w c Hfile)
    as [(kids & d & _ & Hcat & [Hfree _] & Hrun')
       |(e & w0 & _ & Hrun' & Hw0)];
    rewrite Hrun' in Hrun; injection Hrun as <-.
  - by exists kids, d.
  - exfalso. rewrite failures_printed in Hquiet. cbn [is_failure] in Hquiet.
    assert (failures w0 = failures w) as Heq
      by (by destruct Hw0 as [->|(kids & d & _ & _ & ->)]).
    lia.
Qed.

(** After a loop that printed no diagnostic, a listed regular file
    that is still in the root is a hidden one. *)
Lemma for_each_file_leaves_hidden l has_files w b w' :
  for_each_file l has_files w = (Return b, w') →
  failures w' = failures w →
  ∀ n c, entries (fs w') !! n = Some (File c) → n ∈ l →
         startswith "." n = true.
Proof.
  revert has_files w. induction l as [|file rest IH];
    intros has_files w Hrun Hquiet n c Hn Hin.
  { by apply elem_of_nil in Hin. }
  rewrite for_each_file_cons in Hrun.
  destruct (eligible w file) eqn:Hel.
  - apply eligible_regular in Hel as (c0 & Hfile & Hvisible).
    rewrite bind_unfold in Hrun.
    destruct (move_file_returns file (resolve (suffix file)) w)
      as [w1 Hstep].
    rewrite Hstep in Hrun.
    pose proof (move_file_evolves _ _ _ _ _ Hfile Hstep) as (_ & _ & Hle1).
    pose proof (for_each_file_evolves _ _ _ _ _ Hrun) as (Hfiles & _ & Hle2).
    destruct (move_file_quiet _ _ _ _ _ Hfile Hstep)
      as (kids & d & Hcat & _ & ->); [lia|].
    apply elem_of_cons in Hin as [->|Hin].
    + exfalso. apply Hfiles in Hn. cbn [with_entries with_fs fs entries] in Hn.
      destruct (decide (file = resolve (suffix file))) as [Heq|Hne].
      * rewrite <- Heq in Hn. by rewrite lookup_insert_eq in Hn.
      * rewrite lookup_insert_ne in Hn by done.
        by rewrite lookup_delete_eq in Hn.
    + eapply IH; [exact Hrun|lia|exact Hn|exact Hin].
  - apply elem_of_cons in Hin as [->|Hin].
    + pose proof (for_each_file_evolves _ _ _ _ _ Hrun) as (Hfiles & _ & _).
      apply Hfiles in Hn. unfold eligible in Hel. rewrite Hn in Hel.
      by destruct (startswith "." file).
    + by eapply IH.
Qed.

(** After a loop that printed no diagnostic, every listed regular file
    that is not hidden is an entry of its category directory. *)
Lemma for_each_file_relocates l has_files w b w' :
  for_each_file l has_files w = (Return b, w') →
  failures w' = failures w →
  ∀ n c, entries (fs w) !! n = Some (File c) → n ∈ l →
         startswith "." n = false →
         ∃ dw kids d,
           entries (fs w') !! resolve (suffix n) = Some (Dir dw kids) ∧
           kids !! d = Some (LFile c).
Proof.
  revert has_files w. induction l as [|file rest IH];
    intros has_files w Hrun Hquiet n c Hn Hin Hvisible.
  { by apply elem_of_nil in Hin. }
  rewrite for_each_file_cons in Hrun.
  destruct (eligible w file) eqn:Hel.
  - apply eligible_regular in Hel as (c0 & Hfile & _).
    rewrite bind_unfold in Hrun.
    destruct (move_file_returns file (resolve (suffix file)) w)
      as [w1 Hstep].
    rewrite Hstep in Hrun.
    pose proof (move_file_evolves _ _ _ _ _ Hfile Hstep) as (_ & _ & Hle1).
    pose proof (for_each_file_evolves _ _ _ _ _ Hrun) as (_ & Hdirs & Hle2).
    destruct (move_file_quiet _ _ _ _ _ Hfile Hstep)
      as (kids & d & Hcat & _ & ->); [lia|].
    destruct (decide (n = file)) as [->|Hne].
    + rewrite Hfile in Hn. injection Hn as ->.
      destruct (Hdirs (resolve (suffix file)) true (<[d := LFile c]> kids))
        as (kids' & Hdir' & Hsub).
      { cbn [with_entries with_fs fs entries]. apply lookup_insert_eq. }
      exists true, kids', d. split; [done|].
      eapply lookup_weaken; [apply lookup_insert_eq|done].
    + apply elem_of_cons in Hin as [->|Hin]; [done|].
      eapply (IH _ _ Hrun); [lia| |done|done].
      cbn [with_entries with_fs fs entries]. rewrite lookup_insert_ne.
      * by rewrite lookup_delete_ne.
      * intros <-. destruct Hcat as [[? _]|?]; congruence.
  - apply elem_of_cons in Hin as [->|Hin].
    + unfold eligible in Hel. by rewrite Hn, Hvisible in Hel.
    + by eapply IH.
Qed.

(** Hidden files stay where they are, whatever happens to the others. *)
Lemma for_each_file_keeps_hidden l has_files w b w' :
  for_each_file l has_files w = (Return b, w') →
  ∀ n c, entries (fs w) !! n = Some (File c) → startswith "." n = true →
         entries (fs w') !! n = Some (File c).
Proof.
  revert has_files w. induction l as [|file rest IH];
    intros has_files w Hrun n c Hn Hhidden.
  { by injection Hrun as _ <-. }
  rewrite for_each_file_cons in Hrun.
  destruct (eligible w file) eqn:Hel; [|by eapply IH].
  apply eligible_regular in Hel as (c0 & Hfile & Hvisible).
  rewrite bind_unfold in Hrun.
  destruct (move_file_returns file (resolve (suffix file)) w) as [w1 Hstep].
  rewrite Hstep in Hrun.
  assert (n ≠ file) as Hne.
  { intros ->. rewrite Hhidden in Hvisible. discriminate. }
  eapply (IH _ _ Hrun); [|exact Hhidden].
  destruct (move_file_regular file (resolve (suffix file)) w c0 Hfile)
    as [(kids & d & _ & Hcat & _ & Hrun')|(e & w0 & _ & Hrun' & Hw0)].
  all: rewrite Hrun' in Hstep; clear Hrun';
    apply (f_equal snd) in Hstep; cbn [snd] in Hstep; subst w1.
  - cbn [with_entries with_fs fs entries]. rewrite lookup_insert_ne.
    + by rewrite lookup_delete_ne.
    + intros <-. destruct Hcat as [[? _]|?]; congruence.
  - destruct Hw0 as [->|(kids & d & Hdir & _ & ->)]; [done|].
    unfold printed, print, modify.
    cbn [snd with_entries with_fs fs entries].
    rewrite lookup_insert_ne; [done|congruence].
Qed.

Lemma orgnanize_files_on_loop l w w' :
  orgnanize_files_on l w = (Return tt, w') →
  ∃ b w1, for_each_file l false w = (Return b, w1) ∧
          entries (fs w') = entries (fs w1) ∧ failures w' = failures w1.
Proof.
  unfold orgnanize_files_on. rewrite bind_unfold. intros Hrun.
  destruct (for_each_file_returns l false w) as (b & w1 & Hloop).
  rewrite Hloop in Hrun. exists b, w1. split; [done|].
  destruct b; cbn [negb] in Hrun.
  - by injection Hrun as <-.
  - assert (w' = printed MsgNoFiles w1) as ->
      by (unfold printed; by rewrite Hrun).
    split; [done|]. rewrite failures_printed. cbn [is_failure]. lia.
Qed.


Lemma listing_covers (m : gmap string node) n :
  is_Some (m !! n) → n ∈ (map_to_list m).*1.
Proof.
  intros [v Hv]. apply list_elem_of_fmap. exists (n, v).
  split; [done|]. by apply elem_of_map_to_list.
Qed.

(** A scan is either [orgnanize_files] itself or its body on a listing
    that holds every name of the root; either way it is the loop on
    such a listing, from a state with the same files and diagnostics. *)
Lemma scan_loop w w' :
  (orgnanize_files w = (Return tt, w') ∨
   ∃ l, orgnanize_files_on l w = (Return tt, w') ∧
        ∀ n, is_Some (entries (fs w) !! n) → n ∈ l) →
  ∃ l w0 b w1,
    for_each_file l false w0 = (Return b, w1) ∧
    (∀ n, is_Some (entries (fs w) !! n) → n ∈ l) ∧
    entries (fs w0) = entries (fs w) ∧ failures w0 = failures w ∧
    entries (fs w') = entries (fs w1) ∧ failures w' = failures w1.
Proof.
  intros [Hrun|(l & Hrun & Hcover)].
  - rewrite orgnanize_files_unfold in Hrun. cbn zeta in Hrun.
    destruct (readable (fs w)); [|done].
    apply orgnanize_files_on_loop in Hrun as (b & w1 & Hloop & He & Hf).
    eexists _, _, b, w1. split; [exact Hloop|].
    split; [apply listing_covers|]. by repeat split.
  - apply orgnanize_files_on_loop in Hrun as (b & w1 & Hloop & He & Hf).
    exists l, w, b, w1. by repeat split.
Qed.

(** C4, as the code has it. After a scan during which no dispatch
    failed, every entry directly in the root is a directory or a hidden
    file (a name starting with a dot): every regular file that was in
    the root under a name not starting with a dot is now an entry of
    its category directory, and every hidden regular file is where it
    was, whatever its extension. *)
Theorem scan_leaves_directories_and_hidden_files w w' :
  (orgnanize_files w = (Return tt, w') ∨
   ∃ l, orgnanize_files_on l w = (Return tt, w') ∧
        ∀ n, is_Some (entries (fs w) !! n) → n ∈ l) →
  failures w' = failures w →
  (∀ n c, entries (fs w') !! n = Some (File c) → startswith "." n = true) ∧
  (∀ n c, entries (fs w) !! n = Some (File c) → startswith "." n = false →
          ∃ dw kids d,
            entries (fs w') !! resolve (suffix n) = Some (Dir dw kids) ∧
            kids !! d = Some (LFile c)) ∧
  (∀ n c, entries (fs w) !! n = Some (File c) → startswith "." n = true →
          entries (fs w') !! n = Some (File c)).
Proof.
  intros Hscan Hquiet.
  destruct (scan_loop w w' Hscan)
    as (l & w0 & b & w1 & Hloop & Hcover & He0 & Hf0 & He1 & Hf1).
  assert (failures w1 = failures w0) as Hquiet1 by congruence.
  rewrite He1. split; [|split].
  - intros n c Hn.
    eapply for_each_file_leaves_hidden; [exact Hloop|exact Hquiet1|exact Hn|].
    apply Hcover. rewrite <- He0.
    pose proof (for_each_file_evolves _ _ _ _ _ Hloop) as (Hfiles & _ & _).
    apply Hfiles in Hn. eauto.
  - intros n c Hn Hvisible.
    eapply for_each_file_relocates;
      [exact Hloop|exact Hquiet1|by rewrite He0| |exact Hvisible].
    apply Hcover. eauto.
  - intros n c Hn Hhidden.
    eapply for_each_file_keeps_hidden; [exact Hloop|by rewrite He0|done].
Qed.

Lemma scan_leaves_directories_and_hidden_files_witness :
  let w := started (<[".notes.txt" := File (bytes_of "n")]>
                      (<["photo.jpg" := File (bytes_of "p")]>
                         (<["projects" := Dir true ∅]> ∅)))
             true true 0 100 in
  let w' := (orgnanize_files w).2 in
  (∃ dw kids d,
     entries (fs w') !! "images" = Some (Dir dw kids) ∧
     kids !! d = Some (LFile (bytes_of "p"))) ∧
  entries (fs w') !! ".notes.txt" = Some (File (bytes_of "n")).
Proof.
  intros w w'.
  assert (orgnanize_files w = (Return tt, w')) as Hrun
    by (vm_compute; reflexivity).
  assert (failures w' = failures w) as Hquiet by (vm_compute; reflexivity).
  assert (resolve (suffix "photo.jpg") = "images") as Hres
    by (vm_compute; reflexivity).
  destruct (scan_leaves_directories_and_hidden_files w w' (or_introl Hrun)
              Hquiet) as (_ & Hmoved & Hkept).
  split.
  - rewrite <- Hres. apply Hmoved; vm_compute; reflexivity.
  - apply Hkept; vm_compute; reflexivity.
Defined.

(** C4 as stated fails: a hidden regular file with the extension
    ".txt" and a directory that is no category are still directly in
    the root after a scan that completed without any failure, while the
    visible file next to them was moved. *)
Lemma hidden_file_stays_in_root :
  let w := started (<[".notes.txt" := File (bytes_of "n")]>
                      (<["photo.jpg" := File (bytes_of "p")]>
                         (<["projects" := Dir true ∅]> ∅)))
             true true 0 100 in
  let w' := (orgnanize_files w).2 in
  (orgnanize_files w).1 = Return tt ∧
  failures w' = 0%nat ∧
  entries (fs w') !! ".notes.txt" = Some (File (bytes_of "n")) ∧
  suffix ".notes.txt" = ".txt" ∧
  (".txt" ∉ TEMPORARY_EXTENSIONS) ∧
  entries (fs w') !! "projects" = Some (Dir true ∅) ∧
  entries (fs w') !! "photo.jpg" = None.
Proof.
  cbv zeta. repeat split; try (vm_compute; reflexivity).
  by_compute.
Qed.

(** C10. A scan does not exempt temporary files. A file whose suffix is
    in [TEMPORARY_EXTENSIONS] resolves to "others"; when it is a regular
    file whose name does not start with a dot, the loop hands it to
    [move_file] with the "others" directory like any other file; that
    dispatch relocates it when the root is writable, "others" is
    absent or a writable directory, and the numbered candidates it may
    have to probe there are names the filesystem takes; and after a
    scan during which no dispatch failed it is an entry of "others". *)
Theorem temporary_files_are_dispatched file :
  suffix file ∈ TEMPORARY_EXTENSIONS →
  resolve (suffix file) = "others" ∧
  (∀ w c rest has_files,
     entries (fs w) !! file = Some (File c) →
     startswith "." file = false →
     for_each_file (file :: rest) has_files w
     = (move_file file "others" ;; for_each_file rest true) w) ∧
  (∀ w c kids,
     entries (fs w) !! file = Some (File c) →
     writable (fs w) = true →
     category_dir w "others" kids →
     candidates_fit file (size kids) →
     ∃ d, lowest_free kids file d ∧
          move_file file "others" w
          = (Return tt,
             with_entries (<["others" := Dir true (<[d := LFile c]> kids)]>
                             (delete file (entries (fs w)))) w)) ∧
  (∀ w w' c,
     orgnanize_files w = (Return tt, w') →
     failures w' = failures w →
     entries (fs w) !! file = Some (File c) →
     startswith "." file = false →
     ∃ dw kids d,
       entries (fs w') !! "others" = Some (Dir dw kids) ∧
       kids !! d = Some (LFile c)).
Proof.
  intros Htemp.
  assert (resolve (suffix file) = "others") as Hres.
  { apply resolve_unlisted.
    by apply TEMPORARY_EXTENSIONS_not_in_table. }
  split; [done|]. split; [|split].
  - intros w c rest has_files Hfile Hvisible.
    rewrite for_each_file_cons. unfold eligible.
    rewrite Hfile, Hvisible. simpl. by rewrite Hres.
  - intros w c kids Hfile Hw Hcat Hfit. by apply move_file_succeeds.
  - intros w w' c Hrun Hquiet Hfile Hvisible.
    destruct (scan_loop w w' (or_introl Hrun))
      as (l & w0 & b & w1 & Hloop & Hcover & He0 & Hf0 & He1 & Hf1).
    rewrite He1, <- Hres.
    eapply for_each_file_relocates;
      [exact Hloop|congruence|by rewrite He0| |exact Hvisible].
    apply Hcover. eauto.
Qed.

Lemma temporary_files_are_dispatched_witness :
  let w := started (<["film.mkv.crdownload" := File (bytes_of "partial")]> ∅)
             true true 0 100 in
  ∃ dw kids d,
    entries (fs (orgnanize_files w).2) !! "others" = Some (Dir dw kids) ∧
    kids !! d = Some (LFile (bytes_of "partial")).
Proof.
  intros w.
  assert (suffix "film.mkv.crdownload" ∈ TEMPORARY_EXTENSIONS) as Htemp
    by by_compute.
  apply (proj2 (proj2 (proj2
           (temporary_files_are_dispatched "film.mkv.crdownload" Htemp)))
           w (orgnanize_files w).2 (bytes_of "partial"));
    vm_compute; reflexivity.
Defined.


(** ** The fields a scan leaves alone *)

Lemma same_frame_refl w : same_frame w w.
Proof. by repeat split. Qed.

Lemma same_frame_trans w1 w2 w3 :
  same_frame w1 w2 → same_frame w2 w3 → same_frame w1 w3.
Proof.
  intros (? & ? & ? & ?) (? & ? & ? & ?). repeat split; congruence.
Qed.

Lemma move_file_frame file extension w w1 c :
  entries (fs w) !! file = Some (File c) →
  move_file file extension w = (Return tt, w1) →
  same_frame w w1.
Proof.
  intros Hfile Hrun.
  destruct (move_file_regular file extension w c Hfile)
    as [(kids & d & _ & _ & _ & Hrun')|(e & w0 & _ & Hrun' & Hw0)];
    rewrite Hrun' in Hrun; apply (f_equal snd) in Hrun;
    cbn [snd] in Hrun; subst w1.
  - by repeat split.
  - by destruct Hw0 as [->|(kids & d & _ & _ & ->)].
Qed.

Lemma for_each_file_frame l has_files w b w' :
  for_each_file l has_files w = (Return b, w') → same_frame w w'.
Proof.
  revert has_files w. induction l as [|file rest IH]; intros has_files w Hrun.
  - apply (f_equal snd) in Hrun. cbn [snd] in Hrun. subst w'.
    apply same_frame_refl.
  - rewrite for_each_file_cons in Hrun.
    destruct (eligible w file) eqn:Hel; [|by eapply IH].
    apply eligible_regular in Hel as (c & Hfile & _).
    rewrite bind_unfold in Hrun.
    destruct (move_file_returns file (resolve (suffix file)) w)
      as [w1 Hstep].
    rewrite Hstep in Hrun.
    eapply same_frame_trans; [by eapply move_file_frame|by eapply IH].
Qed.

Lemma orgnanize_files_on_frame l w :
  same_frame w (orgnanize_files_on l w).2.
Proof.
  unfold orgnanize_files_on. rewrite bind_unfold.
  destruct (for_each_file_returns l false w) as (b & w1 & Hloop).
  rewrite Hloop. apply for_each_file_frame in Hloop.
  by destruct b.
Qed.

(** [orgnanize_files] counts one scan and leaves the clock and the
    handler object alone, whether it returns or raises. *)
Lemma orgnanize_files_frame w :
  scans (orgnanize_files w).2 = S (scans w) ∧
  handler (orgnanize_files w).2 = handler w ∧
  now (orgnanize_files w).2 = now w ∧
  probes (orgnanize_files w).2 = probes w.
Proof.
  rewrite orgnanize_files_unfold. cbn zeta.
  destruct (readable (fs w)); [|done].
  destruct (orgnanize_files_on_frame
              ((map_to_list (entries (fs w))).*1)
              (mk_world (fs w) (now w) (out w) (handler w) (probes w)
                 (S (scans w)))) as (? & ? & ? & ?).
  done.
Qed.

(** ** The stability probe *)

Section Handler.

Variable ambient : Z → Z → filesystem → filesystem.

(** [is_file_stable] spelled out: the probe is counted, the first size
    is read, the probe interval passes, the second size is read. *)
Lemma is_file_stable_eq file_path w :
  is_file_stable ambient file_path w
  = let w0 := mk_world (fs w) (now w) (out w) (handler w) (S (probes w))
                (scans w) in
    let d := stability_float (handler w) in
    match st_size (fs w) file_path with
    | None => (Return false, w0)
    | Some initial_size =>
        if bool_decide (d < 0) then (Raise ValueError, w0)
        else
          let w1 := mk_world (ambient (now w) (now w + d) (fs w)) (now w + d)
                      (out w) (handler w) (S (probes w)) (scans w) in
          match st_size (fs w1) file_path with
          | None => (Return false, w1)
          | Some final_size =>
              (Return (bool_decide (final_size = initial_size)), w1)
          end
    end.
Proof.
  unfold is_file_stable, try_except, mbind, M_bind, modify, gets, stat_size,
    time_sleep, mret, M_ret.
  cbn [fs now out handler probes scans].
  destruct (st_size (fs w) file_path) as [n0|];
    [|by rewrite bool_decide_eq_true_2].
  cbn [fs now out handler probes scans].
  destruct (bool_decide (stability_float (handler w) < 0));
    [by rewrite bool_decide_eq_false_2|].
  cbn [fs now out handler probes scans].
  destruct (st_size _ file_path) as [n1|]; [done|].
  by rewrite bool_decide_eq_true_2.
Qed.

(** The probe leaves the handler object and the scan counter alone and
    counts itself. *)
Lemma is_file_stable_frame file_path w :
  handler (is_file_stable ambient file_path w).2 = handler w ∧
  scans (is_file_stable ambient file_path w).2 = scans w ∧
  probes (is_file_stable ambient file_path w).2 = S (probes w).
Proof.
  rewrite is_file_stable_eq. cbn zeta.
  destruct (st_size (fs w) file_path) as [n0|]; [|done].
  destruct (bool_decide (stability_float (handler w) < 0)); [done|].
  by destruct (st_size _ file_path) as [n1|].
Qed.

(** C5. [is_file_stable] reads the size, waits [stability_float],
    reads the size again, and returns [True] exactly when both reads
    succeeded and gave the same size. When the path is gone at either
    read ([FileNotFoundError]) it returns [False] instead of raising.
    [w1] is the world after the wait: the directory as the other
    processes left it, one probe interval later. *)
Theorem is_file_stable_iff file_path w :
  0 ≤ stability_float (handler w) →
  let w1 := (time_sleep ambient (stability_float (handler w)) w).2 in
  let r := is_file_stable ambient file_path w in
  (r.1 = Return true ↔
   ∃ size, (stat_size file_path w).1 = Return size ∧
           (stat_size file_path w1).1 = Return size) ∧
  ((stat_size file_path w).1 = Raise FileNotFoundError →
   r.1 = Return false) ∧
  (∀ size, (stat_size file_path w).1 = Return size →
           (stat_size file_path w1).1 = Raise FileNotFoundError →
           r.1 = Return false) ∧
  (∀ size size', (stat_size file_path w).1 = Return size →
                 (stat_size file_path w1).1 = Return size' →
                 size' ≠ size → r.1 = Return false) ∧
  (∀ size, (stat_size file_path w).1 = Return size →
           now r.2 = now w + stability_float (handler w)).
Proof.
  intros Hd w1 r. unfold r, w1. rewrite is_file_stable_eq.
  unfold stat_size, time_sleep. cbn zeta.
  rewrite (bool_decide_eq_false_2 (stability_float (handler w) < 0))
    by lia.
  cbn [snd fs].
  destruct (st_size (fs w) file_path) as [n0|];
    destruct (st_size (ambient _ _ (fs w)) file_path) as [n1|];
    cbn [fst snd now].
  - split; [|split; [|split; [|split]]]; try done.
    + split.
      * intros [= Heq]. apply bool_decide_eq_true_1 in Heq as ->.
        by exists n0.
      * intros (size & [= <-] & [= <-]). by rewrite bool_decide_eq_true_2.
    + intros size size' [= <-] [= <-] Hne.
      by rewrite bool_decide_eq_false_2.
  - split; [|split; [|split; [|split]]]; try done.
    split; [done|]. by intros (size & _ & ?).
  - split; [|split; [|split; [|split]]]; try done.
    split; [done|]. by intros (size & ? & _).
  - split; [|split; [|split; [|split]]]; try done.
    split; [done|]. by intros (size & ? & _).
Qed.

(** ** The event handler *)

(** [on_created] spelled out. *)
Lemma on_created_eq ev w :
  on_created ambient ev w
  = if is_directory ev then (Return tt, w)
    else if bool_decide (suffix (src_path ev) ∈ TEMPORARY_EXTENSIONS)
    then (Return tt, printed (MsgIgnoring (src_path ev)) w)
    else
      match is_file_stable ambient (src_path ev) w with
      | (Return true, w1) =>
          let w2 := with_last_event_time (now w1) w1 in
          if bool_decide (now w1 - last_event_time (handler w1)
                          > delay (handler w1))
          then (time_sleep ambient (delay (handler w1)) ;; orgnanize_files)
                 (printed MsgDownloadComplete w2)
          else (Return tt, w2)
      | (Return false, w1) => (Return tt, printed MsgIncomplete w1)
      | (Raise e, w1) => (Raise e, w1)
      | (Timeout, w1) => (Timeout, w1)
      end.
Proof.
  unfold on_created. destruct (is_directory ev); [done|].
  destruct (bool_decide (suffix (src_path ev) ∈ TEMPORARY_EXTENSIONS));
    [done|].
  rewrite bind_unfold.
  destruct (is_file_stable ambient (src_path ev) w) as [[[]|e|] w1];
    try done.
  unfold time_time, gets, modify, print.
  rewrite !bind_unfold. cbn [fst snd handler with_last_event_time delay].
  by destruct (bool_decide (now w1 - last_event_time (handler w1)
                            > delay (handler w1))).
Qed.

(** C6. A creation event whose path has a temporary extension is
    ignored: the handler returns at once, without a stability probe
    (the probe counter and the clock are as before), without touching
    the handler object, and without a scan (the scan counter and the
    directory are as before). *)
Theorem temporary_event_is_ignored ev w :
  suffix (src_path ev) ∈ TEMPORARY_EXTENSIONS →
  ∃ w', on_created ambient ev w = (Return tt, w') ∧
        probes w' = probes w ∧
        handler w' = handler w ∧
        scans w' = scans w ∧
        fs w' = fs w ∧
        now w' = now w.
Proof.
  intros Htemp. rewrite on_created_eq.
  destruct (is_directory ev); [by exists w|].
  rewrite bool_decide_eq_true_2 by done.
  by eexists.
Qed.

(** The scan at the end of an accepted trigger, after the settle
    sleep: it adds at most one scan and leaves the handler object
    alone. *)
Lemma settle_and_scan_frame d w :
  let r := (time_sleep ambient d ;; orgnanize_files) w in
  handler r.2 = handler w ∧
  (scans r.2 = scans w ∨ scans r.2 = S (scans w)) ∧
  (0 ≤ d → scans r.2 = S (scans w)).
Proof.
  cbn zeta. rewrite bind_unfold. unfold time_sleep.
  destruct (bool_decide (d < 0)) eqn:Hd.
  - split; [done|]. split; [by left|].
    apply bool_decide_eq_true_1 in Hd. lia.
  - destruct (orgnanize_files_frame
                (mk_world (ambient (now w) (now w + d) (fs w)) (now w + d)
                   (out w) (handler w) (probes w) (scans w)))
      as (Hs & Hh & _ & _).
    rewrite Hs, Hh. split; [done|]. split; [by right|done].
Qed.

(** C2, as the code has it. The stored timestamp is rewritten on every
    creation event that passes the stability probe, whether or not the
    event becomes an accepted trigger: it is then the clock read after
    the probe, and when the elapsed time is at most [delay] no scan
    follows. On every other event (a directory, a temporary extension,
    a probe that fails or raises) it is unchanged. *)
Theorem timestamp_follows_every_stable_event ev w :
  let r := on_created ambient ev w in
  let probe := is_file_stable ambient (src_path ev) w in
  (is_directory ev = true ∨
   suffix (src_path ev) ∈ TEMPORARY_EXTENSIONS ∨
   probe.1 ≠ Return true →
   last_event_time (handler r.2) = last_event_time (handler w)) ∧
  (is_directory ev = false →
   suffix (src_path ev) ∉ TEMPORARY_EXTENSIONS →
   probe.1 = Return true →
   last_event_time (handler r.2) = now probe.2 ∧
   (elapsed_at ambient ev w ≤ delay (handler w) → scans r.2 = scans w)).
Proof.
  cbn zeta. rewrite on_created_eq. unfold elapsed_at.
  pose proof (is_file_stable_frame (src_path ev) w) as (Hh & Hs & _).
  destruct (is_directory ev).
  { split; [done|]. by intros [=]. }
  destruct (decide (suffix (src_path ev) ∈ TEMPORARY_EXTENSIONS))
    as [Htemp|Htemp].
  { rewrite bool_decide_eq_true_2 by done. split; [done|]. done. }
  rewrite bool_decide_eq_false_2 by done.
  destruct (is_file_stable ambient (src_path ev) w) as [[[]|e|] w1];
    cbn [fst snd] in *.
  - split; [by intros [[=]|[?|?]]|]. intros _ _ _. rewrite Hh.
    destruct (decide (now w1 - last_event_time (handler w) > delay (handler w)))
      as [Hgt|Hle].
    + rewrite bool_decide_eq_true_2 by done.
      destruct (settle_and_scan_frame (delay (handler w))
                  (printed MsgDownloadComplete
                     (with_last_event_time (now w1) w1))) as (Hh' & _ & _).
      rewrite Hh'. split; [done|]. lia.
    + rewrite bool_decide_eq_false_2 by done. by split.
  - split; [|by intros _ _ [=]]. intros _. by rewrite <- Hh.
  - split; [|by intros _ _ [=]]. intros _. by rewrite <- Hh.
  - split; [|by intros _ _ [=]]. intros _. by rewrite <- Hh.
Qed.

(** ** Delivery of events *)

Lemma wait_until_eq t w :
  wait_until ambient t w
  = (Return tt,
     if bool_decide (now w < t)
     then mk_world (ambient (now w) t (fs w)) t (out w) (handler w)
            (probes w) (scans w)
     else w).
Proof. unfold wait_until. by destruct (bool_decide (now w < t)). Qed.

Lemma wait_until_frame t w :
  handler (wait_until ambient t w).2 = handler w ∧
  scans (wait_until ambient t w).2 = scans w.
Proof.
  rewrite wait_until_eq. cbn [snd].
  by destruct (bool_decide (now w < t)).
Qed.

Lemma deliver_eq arrival w :
  deliver ambient arrival w
  = on_created ambient arrival.2 (wait_until ambient arrival.1 w).2.
Proof. unfold deliver. by rewrite bind_unfold, wait_until_eq. Qed.

(** A scan is entered only on an accepted trigger, and then once. *)
Lemma on_created_scans ev w :
  scans (on_created ambient ev w).2 = scans w ∨
  (scans (on_created ambient ev w).2 = S (scans w) ∧ accepted ambient ev w).
Proof.
  rewrite on_created_eq. unfold accepted, elapsed_at.
  pose proof (is_file_stable_frame (src_path ev) w) as (Hh & Hs & _).
  destruct (is_directory ev); [by left|].
  destruct (decide (suffix (src_path ev) ∈ TEMPORARY_EXTENSIONS))
    as [Htemp|Htemp].
  { rewrite bool_decide_eq_true_2 by done. by left. }
  rewrite bool_decide_eq_false_2 by done.
  destruct (is_file_stable ambient (src_path ev) w) as [[[]|e|] w1];
    cbn [fst snd] in *; try (by left).
  rewrite Hh.
  destruct (decide (now w1 - last_event_time (handler w) > delay (handler w)))
    as [Hgt|Hle].
  - rewrite bool_decide_eq_true_2 by done.
    destruct (settle_and_scan_frame (delay (handler w))
                (printed MsgDownloadComplete
                   (with_last_event_time (now w1) w1))) as (_ & Hsc & _).
    assert (scans (printed MsgDownloadComplete
                     (with_last_event_time (now w1) w1)) = scans w) as Hs'
      by exact Hs.
    rewrite Hs' in Hsc. destruct Hsc as [?|?]; [by left|].
    right. split; [done|]. by repeat split.
  - rewrite bool_decide_eq_false_2 by done. by left.
Qed.

Lemma on_created_accepted ev w :
  0 ≤ delay (handler w) →
  accepted ambient ev w →
  scans (on_created ambient ev w).2 = S (scans w).
Proof.
  intros Hd (Hdir & Htemp & Hstable & Hgt). unfold elapsed_at in Hgt.
  rewrite on_created_eq, Hdir.
  rewrite bool_decide_eq_false_2 by done.
  pose proof (is_file_stable_frame (src_path ev) w) as (Hh & Hs & _).
  destruct (is_file_stable ambient (src_path ev) w) as [[[]|e|] w1];
    cbn [fst snd] in *; try done.
  rewrite Hh. rewrite bool_decide_eq_true_2 by done.
  destruct (settle_and_scan_frame (delay (handler w))
              (printed MsgDownloadComplete
                 (with_last_event_time (now w1) w1))) as (_ & _ & Hsc).
  assert (scans (printed MsgDownloadComplete
                   (with_last_event_time (now w1) w1)) = scans w) as Hs'
    by exact Hs.
  rewrite Hsc by done. by rewrite Hs'.
Qed.

End Handler.

Lemma is_file_stable_iff_witness :
  (is_file_stable quiet "a.pdf"
     (started (<["a.pdf" := File (bytes_of "abc")]> ∅) true true 0 100)).1
  = Return true.
Proof.
  apply (is_file_stable_iff quiet "a.pdf"
           (started (<["a.pdf" := File (bytes_of "abc")]> ∅) true true 0 100)).
  - vm_compute. discriminate.
  - exists 3. split; vm_compute; reflexivity.
Defined.

Lemma temporary_event_is_ignored_witness :
  ∃ w', on_created quiet (mk_event false ("film.mkv" +:+ ".crdownload"))
          (started (<["film.mkv.crdownload" := File (bytes_of "abc")]> ∅)
             true true 0 100) = (Return tt, w') ∧
        probes w' = 0%nat ∧ scans w' = 0%nat ∧
        last_event_time (handler w') = 0.
Proof.
  destruct (temporary_event_is_ignored quiet
              (mk_event false ("film.mkv" +:+ ".crdownload"))
              (started (<["film.mkv.crdownload" := File (bytes_of "abc")]> ∅)
                 true true 0 100))
    as (w' & Hrun & Hp & Hh & Hs & _).
  - cbn [src_path].
    rewrite (suffix_of_temporary_name "film.mkv" ".crdownload");
      [by_compute|discriminate|by_compute].
  - exists w'. split; [exact Hrun|]. rewrite Hp, Hs, Hh. by repeat split.
Defined.

Lemma timestamp_follows_every_stable_event_witness :
  let w := started (<["a.pdf" := File (bytes_of "x")]> ∅) true true 100 101 in
  let r := on_created quiet (mk_event false "a.pdf") w in
  last_event_time (handler r.2) = 102 ∧ scans r.2 = scans w.
Proof.
  intros w r.
  destruct (proj2 (timestamp_follows_every_stable_event quiet
                     (mk_event false "a.pdf") w)) as [Hstamp Hscan].
  - reflexivity.
  - by_compute.
  - vm_compute. reflexivity.
  - split.
    + unfold r. rewrite Hstamp. vm_compute. reflexivity.
    + apply Hscan. vm_compute. discriminate.
Defined.

(** C2 as stated fails: a stable file created one second after the
    handler was constructed is no accepted trigger (nothing is printed,
    no scan is run), and yet the stored timestamp moves from 100 to
    102. *)
Lemma timestamp_changes_without_trigger :
  let w := started (<["a.pdf" := File (bytes_of "x")]> ∅) true true 100 101 in
  let r := on_created quiet (mk_event false "a.pdf") w in
  r.1 = Return tt ∧ out r.2 = [] ∧ scans r.2 = scans w ∧
  last_event_time (handler w) = 100 ∧
  last_event_time (handler r.2) = 102.
Proof. cbv zeta. repeat split; vm_compute; reflexivity. Qed.


(** ** Further properties of the dispatch and of the debounce *)

(** X1. Dispatching a regular file whose plain name is free in its
    category directory puts it there under that name, with its
    contents, removes it from the root and prints nothing. *)
Theorem dispatch_to_free_name file extension w c kids :
  entries (fs w) !! file = Some (File c) →
  writable (fs w) = true →
  category_dir w extension kids →
  kids !! file = None →
  ∃ w', move_file file extension w = (Return tt, w') ∧
        entries (fs w') !! file = None ∧
        entries (fs w') !! extension
        = Some (Dir true (<[file := LFile c]> kids)) ∧
        out w' = out w.
Proof.
  intros Hfile Hw Hcat Hfree.
  pose proof (move_file_to_plain_name file extension w c kids Hfile Hw Hcat
                Hfree) as Hrun.
  assert (file ≠ extension) as Hne
    by (intros ->; destruct Hcat as [[? _]|?]; congruence).
  eexists. split; [exact Hrun|].
  cbn [with_entries with_fs fs entries out].
  rewrite lookup_insert_ne by done.
  rewrite lookup_delete_eq, lookup_insert_eq. done.
Qed.

Lemma dispatch_to_free_name_witness :
  ∃ w', move_file "photo.jpg" "images"
          (started (<["photo.jpg" := File (bytes_of "p")]> ∅)
             true true 0 100) = (Return tt, w') ∧
        entries (fs w') !! "photo.jpg" = None ∧
        entries (fs w') !! "images"
        = Some (Dir true (<["photo.jpg" := LFile (bytes_of "p")]> ∅)) ∧
        out w' = [].
Proof.
  apply (dispatch_to_free_name "photo.jpg" "images"
           (started (<["photo.jpg" := File (bytes_of "p")]> ∅)
              true true 0 100) (bytes_of "p") ∅).
  - reflexivity.
  - reflexivity.
  - left. split; reflexivity.
  - apply lookup_empty.
Defined.

(** X2. A scan over a listing without any visible regular file prints
    "No files to organize" and changes nothing else. *)
Theorem scan_without_files l w :
  (∀ n, n ∈ l → eligible w n = false) →
  orgnanize_files_on l w = (Return tt, printed MsgNoFiles w).
Proof.
  intros Hnone.
  assert (∀ has_files, for_each_file l has_files w = (Return has_files, w))
    as Hloop.
  { induction l as [|file rest IH]; intros has_files; [done|].
    rewrite for_each_file_cons, Hnone by apply list_elem_of_here.
    apply IH. intros n Hn. apply Hnone. by apply list_elem_of_further. }
  unfold orgnanize_files_on. rewrite bind_unfold, Hloop. done.
Qed.

Lemma scan_without_files_witness :
  orgnanize_files_on ["projects"; ".profile"]
    (started (<["projects" := Dir true ∅]>
                (<[".profile" := File (bytes_of "x")]> ∅)) true true 0 100)
  = (Return tt,
     printed MsgNoFiles
       (started (<["projects" := Dir true ∅]>
                   (<[".profile" := File (bytes_of "x")]> ∅))
          true true 0 100)).
Proof.
  apply scan_without_files. intros n Hn.
  apply elem_of_cons in Hn as [->|Hn]; [vm_compute; reflexivity|].
  apply elem_of_cons in Hn as [->|Hn]; [vm_compute; reflexivity|].
  by apply elem_of_nil in Hn.
Defined.

Section Retrigger.

Variable ambient : Z → Z → filesystem → filesystem.

(** A probe that returns [True] has slept [stability_float]. *)
Lemma is_file_stable_true_now file_path w :
  (is_file_stable ambient file_path w).1 = Return true →
  now (is_file_stable ambient file_path w).2
  = now w + stability_float (handler w) ∧
  0 ≤ stability_float (handler w).
Proof.
  rewrite is_file_stable_eq. cbn zeta.
  destruct (st_size (fs w) file_path) as [n0|]; [|done].
  destruct (bool_decide (stability_float (handler w) < 0)) eqn:Hd; [done|].
  apply bool_decide_eq_false_1 in Hd.
  destruct (st_size _ file_path) as [n1|]; [|done].
  intros _. cbn [snd now]. split; [done|lia].
Qed.

(** After an accepted trigger has returned, the clock is at least
    [delay] past the stored timestamp, and the configuration is as it
    was. *)
Lemma accepted_trigger_clock ev w w' :
  0 ≤ delay (handler w) →
  accepted ambient ev w →
  on_created ambient ev w = (Return tt, w') →
  last_event_time (handler w') + delay (handler w) ≤ now w' ∧
  delay (handler w') = delay (handler w) ∧
  stability_float (handler w') = stability_float (handler w).
Proof.
  intros Hd (Hdir & Htemp & Hstable & Hgt) Hrun. unfold elapsed_at in Hgt.
  rewrite on_created_eq, Hdir in Hrun.
  rewrite bool_decide_eq_false_2 in Hrun by done.
  pose proof (is_file_stable_frame ambient (src_path ev) w) as (Hh & _ & _).
  destruct (is_file_stable ambient (src_path ev) w) as [[[]|e|] w1];
    cbn [fst snd] in *; try done.
  rewrite Hh in Hrun. rewrite bool_decide_eq_true_2 in Hrun by done.
  cbn zeta in Hrun. rewrite bind_unfold in Hrun. unfold time_sleep in Hrun.
  rewrite bool_decide_eq_false_2 in Hrun by lia.
  match type of Hrun with orgnanize_files ?w2 = _ =>
    destruct (orgnanize_files_frame w2) as (_ & Hh2 & Hn2 & _) end.
  rewrite Hrun in Hh2, Hn2. cbn [snd] in Hh2, Hn2.
  rewrite Hh2, Hn2.
  cbn [handler now printed print modify snd with_last_event_time
       last_event_time delay stability_float].
  rewrite Hh. repeat split; lia.
Qed.

(** X3. Once an accepted trigger has returned, the next creation event
    for a stable, non-temporary path is an accepted trigger too,
    whenever it arrives: the handler has slept [delay] since it stored
    the timestamp, and the new probe adds [stability_float]. *)
Theorem accepted_trigger_repeats ev w w' t ev' :
  0 ≤ delay (handler w) →
  0 < stability_float (handler w) →
  accepted ambient ev w →
  on_created ambient ev w = (Return tt, w') →
  let w0 := (wait_until ambient t w').2 in
  is_directory ev' = false →
  suffix (src_path ev') ∉ TEMPORARY_EXTENSIONS →
  (is_file_stable ambient (src_path ev') w0).1 = Return true →
  accepted ambient ev' w0 ∧
  scans (deliver ambient (t, ev') w').2 = S (scans w').
Proof.
  intros Hd Hs Hacc Hrun w0 Hdir Htemp Hstable.
  destruct (accepted_trigger_clock ev w w' Hd Hacc Hrun)
    as (Hclock & Hdelay & Hstab).
  assert (handler w0 = handler w' ∧ scans w0 = scans w' ∧ now w' ≤ now w0)
    as (Hh0 & Hs0 & Hn0).
  { unfold w0. rewrite wait_until_eq. cbn [snd].
    destruct (decide (now w' < t)) as [Hlt|Hge].
    - rewrite bool_decide_eq_true_2 by done. cbn. repeat split; lia.
    - rewrite bool_decide_eq_false_2 by done. repeat split; lia. }
  destruct (is_file_stable_true_now (src_path ev') w0 Hstable)
    as [Hnow _].
  assert (accepted ambient ev' w0) as Hacc'.
  { repeat split; try done. unfold elapsed_at.
    rewrite Hnow, Hh0. lia. }
  split; [done|].
  rewrite deliver_eq. cbn [fst snd]. fold w0.
  assert (0 ≤ delay (handler w0)) as Hd0 by (rewrite Hh0; lia).
  rewrite (on_created_accepted ambient ev' w0 Hd0 Hacc'). lia.
Qed.

End Retrigger.

Lemma accepted_trigger_repeats_witness :
  let w := started (<["a.pdf" := File (bytes_of "x")]>
                      (<[".b.pdf" := File (bytes_of "y")]> ∅))
             true true 0 100 in
  let w' := (on_created quiet (mk_event false "a.pdf") w).2 in
  scans (deliver quiet (101, mk_event false ".b.pdf") w').2 = S (scans w').
Proof.
  intros w w'.
  apply (accepted_trigger_repeats quiet (mk_event false "a.pdf") w w' 101
           (mk_event false ".b.pdf")).
  - vm_compute. discriminate.
  - reflexivity.
  - split; [reflexivity|]. split; [by_compute|].
    split; vm_compute; reflexivity.
  - vm_compute. reflexivity.
  - reflexivity.
  - by_compute.
  - vm_compute. reflexivity.
Defined.

(** ** The dictionary of any table *)

Lemma foldl_add_category_last t1 category lst t2 acc ext :
  ext ∈ lst → ext ∉ all_extensions t2 →
  foldl (λ a entry, add_category a entry.1 entry.2) acc
    (t1 ++ (category, lst) :: t2) !! ext = Some category.
Proof.
  intros Hin Hnotin. rewrite foldl_app. cbn [foldl fst snd].
  rewrite foldl_add_category_notin by done.
  by apply add_category_lookup_in.
Qed.

(** A listed extension has a last listing. *)
Lemma all_extensions_last table ext :
  ext ∈ all_extensions table →
  ∃ t1 category lst t2,
    table = t1 ++ (category, lst) :: t2 ∧ ext ∈ lst ∧
    ext ∉ all_extensions t2.
Proof.
  induction table as [|[c l] table IH]; intros Hin.
  { by apply elem_of_nil in Hin. }
  destruct (decide (ext ∈ all_extensions table)) as [Hlater|Hnot].
  - destruct (IH Hlater) as (t1 & c' & l' & t2 & -> & Hl & Ht2).
    by exists ((c, l) :: t1), c', l', t2.
  - unfold all_extensions in Hin. cbn [fmap list_fmap snd concat] in Hin.
    apply elem_of_app in Hin as [Hl|Hlater]; [|done].
    by exists [], c, l, table.
Qed.

(** X4. [generate_extension_dictionary], for any table: an extension is
    a key exactly when some category lists it, its value is a category
    that lists it, and when several categories list it the last one in
    the table wins. *)
Theorem generate_from_last_listing_wins table ext :
  (generate_from table !! ext = None ↔ ext ∉ all_extensions table) ∧
  (∀ category, generate_from table !! ext = Some category →
               ∃ lst, (category, lst) ∈ table ∧ ext ∈ lst) ∧
  (∀ t1 category lst t2,
     table = t1 ++ (category, lst) :: t2 →
     ext ∈ lst → ext ∉ all_extensions t2 →
     generate_from table !! ext = Some category).
Proof.
  assert (∀ t1 category lst t2,
            table = t1 ++ (category, lst) :: t2 →
            ext ∈ lst → ext ∉ all_extensions t2 →
            generate_from table !! ext = Some category) as Hlast.
  { intros t1 c l t2 -> Hl Ht2. by apply foldl_add_category_last. }
  split; [|split; [|done]].
  - split; [|apply generate_from_notin].
    intros Hnone Hin.
    destruct (all_extensions_last table ext Hin)
      as (t1 & c & l & t2 & Heq & Hl & Ht2).
    rewrite (Hlast _ _ _ _ Heq Hl Ht2) in Hnone. done.
  - intros category Hsome.
    destruct (decide (ext ∈ all_extensions table)) as [Hin|Hnot].
    + destruct (all_extensions_last table ext Hin)
        as (t1 & c & l & t2 & Heq & Hl & Ht2).
      rewrite (Hlast _ _ _ _ Heq Hl Ht2) in Hsome. injection Hsome as ->.
      exists l. split; [|done]. rewrite Heq.
      apply elem_of_app. right. apply list_elem_of_here.
    + rewrite generate_from_notin in Hsome by done. done.
Qed.

Lemma generate_from_last_listing_wins_witness :
  generate_from [("images", [".raw"; ".png"]); ("others", []);
                 ("databases", [".raw"])] !! ".raw" = Some "databases".
Proof.
  apply (proj2 (proj2 (generate_from_last_listing_wins
           [("images", [".raw"; ".png"]); ("others", []);
            ("databases", [".raw"])] ".raw"))
           [("images", [".raw"; ".png"]); ("others", [])]
           "databases" [".raw"] []).
  - reflexivity.
  - apply list_elem_of_here.
  - apply not_elem_of_nil.
Defined.

(** The value of a key is a category of the table. *)
Lemma generate_from_value table ext category :
  generate_from table !! ext = Some category → category ∈ table.*1.
Proof.
  intros Hsome.
  destruct (decide (ext ∈ all_extensions table)) as [Hin|Hnot].
  - destruct (all_extensions_last table ext Hin)
      as (t1 & c & l & t2 & -> & Hl & Ht2).
    unfold generate_from in Hsome.
    rewrite foldl_add_category_last in Hsome by done.
    injection Hsome as <-. rewrite fmap_app. apply elem_of_app. right.
    apply list_elem_of_here.
  - rewrite generate_from_notin in Hsome by done. done.
Qed.

Lemma resolve_in_categories s : resolve s ∈ EXTENSIONS.*1.
Proof.
  unfold resolve, generate_extension_dictionary.
  destruct (generate_from EXTENSIONS !! s) as [category|] eqn:Hs.
  - by apply generate_from_value in Hs.
  - cbn [default]. by_compute.
Qed.

(** X5. Whatever the suffix, found in the dictionary or not, the
    category it resolves to is one of the eight names of [EXTENSIONS];
    no other directory name is ever handed to [move_file] by a scan. *)
Theorem resolve_is_a_category s :
  resolve s ∈ EXTENSIONS.*1 ∧
  ∀ file rest has_files w c,
    entries (fs w) !! file = Some (File c) →
    startswith "." file = false →
    ∃ extension,
      extension ∈ EXTENSIONS.*1 ∧
      for_each_file (file :: rest) has_files w
      = (move_file file extension ;; for_each_file rest true) w.
Proof.
  split; [apply resolve_in_categories|].
  intros file rest has_files w c Hfile Hvisible.
  exists (resolve (suffix file)). split; [apply resolve_in_categories|].
  rewrite for_each_file_cons. unfold eligible.
  by rewrite Hfile, Hvisible.
Qed.

(** ** Numbered names *)

Lemma string_app_assoc s t u : (s +:+ t) +:+ u = s +:+ t +:+ u.
Proof.
  induction s as [|a s IH]; [done|].
  rewrite !string_app_cons. by rewrite IH.
Qed.

(** After the last occurrence of [c] comes [c] itself and then a tail
    without [c]. *)
Lemma rfind_drop c s i :
  rfind c s = Some i →
  ∃ rest, drop i s = String c rest ∧ rfind c rest = None ∧
          String.length s = (i + S (String.length rest))%nat.
Proof.
  revert i. induction s as [|a s IH]; intros i Hi; [done|].
  cbn [rfind] in Hi. destruct (rfind c s) as [j|] eqn:Hj.
  - injection Hi as <-. destruct (IH j eq_refl) as (rest & Hd & Hr & Hl).
    exists rest. cbn [drop String.length]. split; [done|]. split; [done|lia].
  - destruct (decide (a = c)) as [->|Hne]; [|done].
    injection Hi as <-. exists s. by cbn [drop String.length].
Qed.

(** A file with an extension has a non-empty stem, and its suffix is a
    dot followed by a non-empty tail without dots. *)
Lemma suffix_shape file :
  suffix file ≠ "" →
  ∃ rest, suffix file = String "." rest ∧ rfind "." rest = None ∧
          rest ≠ "" ∧ stem file ≠ "".
Proof.
  unfold suffix, stem. destruct (rfind "." file) as [i|] eqn:Hi; [|done].
  destruct (has_suffix file i) eqn:Hs; [|done]. intros _.
  apply bool_decide_eq_true_1 in Hs as [Hpos Hlt].
  destruct (rfind_drop _ _ _ Hi) as (rest & Hd & Hr & Hl).
  exists rest. split; [done|]. split; [done|]. split.
  - intros ->. cbn in Hl. lia.
  - destruct i as [|i]; [lia|]. destruct file; [done|]. done.
Qed.

(** X6. The name [move_file] makes up on a collision keeps the
    extension: for a file with a non-empty suffix, every numbered
    candidate has the same suffix, so it resolves to the same category,
    and its stem is the old stem followed by the counter. *)
Theorem numbered_keeps_suffix file count :
  suffix file ≠ "" →
  suffix (numbered file count) = suffix file ∧
  stem (numbered file count) = stem file +:+ "(" +:+ pretty count +:+ ")" ∧
  resolve (suffix (numbered file count)) = resolve (suffix file).
Proof.
  intros Hsuffix.
  destruct (suffix_shape file Hsuffix) as (rest & Hs & Hr & Hrest & Hstem).
  set (base := stem file +:+ "(" +:+ pretty count +:+ ")").
  assert (numbered file count = base +:+ String "." rest) as Hname.
  { unfold numbered, base. rewrite Hs. by rewrite !string_app_assoc. }
  assert (rfind "." (numbered file count) = Some (String.length base))
    as Hfind by (rewrite Hname; by apply rfind_app_ext).
  assert (has_suffix (numbered file count) (String.length base) = true)
    as Hhas.
  { apply bool_decide_eq_true_2. rewrite Hname, string_app_length.
    cbn [String.length]. split.
    - unfold base. rewrite string_app_length.
      destruct (stem file); [done|]. cbn [String.length]. lia.
    - destruct rest; [done|]. cbn [String.length]. lia. }
  assert (suffix (numbered file count) = suffix file) as Hsame.
  { unfold suffix at 1. rewrite Hfind, Hhas, Hname, Hs.
    apply drop_app_length. }
  split; [done|]. split; [|by rewrite Hsame].
  unfold stem at 1. rewrite Hfind, Hhas, Hname.
  clear. induction base as [|a base IH]; [done|].
  rewrite string_app_cons. cbn [String.length take]. by rewrite IH.
Qed.

Lemma numbered_keeps_suffix_witness :
  suffix (numbered "report.final.pdf" 3) = ".pdf" ∧
  stem (numbered "report.final.pdf" 3) = "report.final(3)".
Proof.
  assert (suffix "report.final.pdf" ≠ "") as Hne by (vm_compute; discriminate).
  destruct (numbered_keeps_suffix "report.final.pdf" 3 Hne)
    as (Hs & Hst & _).
  split.
  - rewrite Hs. vm_compute. reflexivity.
  - rewrite Hst. vm_compute. reflexivity.
Defined.

(** ** More on what a scan does *)

(** A scan, whether [orgnanize_files] or its body on any listing, is
    the loop on that listing from a state with the same directory. *)
Lemma scan_any_loop w w' :
  (orgnanize_files w = (Return tt, w') ∨
   ∃ l, orgnanize_files_on l w = (Return tt, w')) →
  ∃ l w0 b w1,
    for_each_file l false w0 = (Return b, w1) ∧
    fs w0 = fs w ∧ entries (fs w') = entries (fs w1).
Proof.
  intros [Hrun|(l & Hrun)].
  - rewrite orgnanize_files_unfold in Hrun. cbn zeta in Hrun.
    destruct (readable (fs w)); [|done].
    apply orgnanize_files_on_loop in Hrun as (b & w1 & Hloop & He & _).
    by eexists _, _, b, w1.
  - apply orgnanize_files_on_loop in Hrun as (b & w1 & Hloop & He & _).
    by exists l, w, b, w1.
Qed.

(** One dispatch of a regular file, seen from every name of the root:
    the other regular files are untouched; the file itself is still in
    the root or is an entry of the directory it was sent to; and the
    only name that can appear is that directory. *)
Lemma move_file_step file extension w w1 c :
  entries (fs w) !! file = Some (File c) →
  move_file file extension w = (Return tt, w1) →
  (∀ n c', n ≠ file → entries (fs w) !! n = Some (File c') →
           entries (fs w1) !! n = Some (File c')) ∧
  (entries (fs w1) !! file = Some (File c) ∨
   ∃ kids d, entries (fs w1) !! extension = Some (Dir true kids) ∧
             kids !! d = Some (LFile c)) ∧
  (∀ n, is_Some (entries (fs w1) !! n) →
        is_Some (entries (fs w) !! n) ∨
        (n = extension ∧
         ∃ kids, entries (fs w1) !! n = Some (Dir true kids))) ∧
  readable (fs w1) = readable (fs w).
Proof.
  intros Hfile Hrun.
  destruct (move_file_regular file extension w c Hfile)
    as [(kids & d & _ & Hcat & _ & Hrun')|(e & w0 & _ & Hrun' & Hw0)];
    rewrite Hrun' in Hrun; clear Hrun';
    apply (f_equal snd) in Hrun; cbn [snd] in Hrun; subst w1.
  - cbn [with_entries with_fs fs entries readable].
    split; [|split; [|split; [|done]]].
    + intros n c' Hne Hn. rewrite lookup_insert_ne.
      * by rewrite lookup_delete_ne.
      * intros <-. destruct Hcat as [[? _]|?]; congruence.
    + right. exists (<[d := LFile c]> kids), d.
      by rewrite !lookup_insert_eq.
    + intros n Hn. destruct (decide (n = extension)) as [->|Hne].
      * right. split; [done|]. rewrite lookup_insert_eq. eauto.
      * left. rewrite lookup_insert_ne in Hn by done.
        destruct Hn as [v Hv]. apply lookup_delete_Some in Hv as [_ Hv].
        eauto.
  - destruct Hw0 as [->|(kids & d & Hdir & _ & ->)].
    + unfold printed, print, modify. cbn [snd fs].
      split; [done|]. split; [by left|]. split; [by left|done].
    + unfold printed, print, modify.
      cbn [snd with_entries with_fs fs entries readable].
      split; [|split; [|split; [|done]]].
      * intros n c' Hne Hn. rewrite lookup_insert_ne; [done|congruence].
      * left. rewrite lookup_insert_ne; [done|congruence].
      * intros n Hn. destruct (decide (n = extension)) as [->|Hne].
        -- left. eauto.
        -- left. by rewrite lookup_insert_ne in Hn.
Qed.

(** The steps of the loop, for proofs by induction on the listing. *)
Lemma for_each_file_step file rest has_files w b w' :
  for_each_file (file :: rest) has_files w = (Return b, w') →
  (eligible w file = false ∧
   for_each_file rest has_files w = (Return b, w')) ∨
  (∃ c w1,
     entries (fs w) !! file = Some (File c) ∧
     startswith "." file = false ∧
     move_file file (resolve (suffix file)) w = (Return tt, w1) ∧
     for_each_file rest true w1 = (Return b, w')).
Proof.
  intros Hrun. rewrite for_each_file_cons in Hrun.
  destruct (eligible w file) eqn:Hel; [|by left].
  right. apply eligible_regular in Hel as (c & Hfile & Hvisible).
  rewrite bind_unfold in Hrun.
  destruct (move_file_returns file (resolve (suffix file)) w) as [w1 Hstep].
  rewrite Hstep in Hrun. by exists c, w1.
Qed.

Lemma for_each_file_creates l has_files w b w' :
  for_each_file l has_files w = (Return b, w') →
  ∀ n, is_Some (entries (fs w') !! n) →
       is_Some (entries (fs w) !! n) ∨
       (n ∈ EXTENSIONS.*1 ∧
        ∃ kids, entries (fs w') !! n = Some (Dir true kids)).
Proof.
  revert has_files w. induction l as [|file rest IH];
    intros has_files w Hrun n Hn.
  { apply (f_equal snd) in Hrun. cbn [snd] in Hrun. subst w'. by left. }
  apply for_each_file_step in Hrun
    as [[_ Hrest]|(c & w1 & Hfile & _ & Hstep & Hrest)]; [by eapply IH|].
  destruct (IH _ _ Hrest n Hn) as [Hold|Hnew]; [|by right].
  destruct (move_file_step _ _ _ _ _ Hfile Hstep) as (_ & _ & Hnames & _).
  destruct (Hnames n Hold) as [?|[-> (kids & Hdir)]]; [by left|].
  right. split; [apply resolve_in_categories|].
  pose proof (for_each_file_evolves _ _ _ _ _ Hrest) as (_ & Hdirs & _).
  destruct (Hdirs _ _ _ Hdir) as (kids' & Hdir' & _). eauto.
Qed.

(** X7. A scan creates nothing in the root but category directories:
    every name present after it was present before, or is one of the
    eight category names and is now a writable directory. In particular
    it never creates a regular file in the root. *)
Theorem scan_creates_only_category_directories w w' :
  (orgnanize_files w = (Return tt, w') ∨
   ∃ l, orgnanize_files_on l w = (Return tt, w')) →
  ∀ n, is_Some (entries (fs w') !! n) →
       is_Some (entries (fs w) !! n) ∨
       (n ∈ EXTENSIONS.*1 ∧
        ∃ kids, entries (fs w') !! n = Some (Dir true kids)).
Proof.
  intros Hscan n Hn.
  destruct (scan_any_loop w w' Hscan) as (l & w0 & b & w1 & Hloop & H0 & H1).
  rewrite H1 in Hn. rewrite H1, <- H0.
  by eapply for_each_file_creates.
Qed.

Lemma scan_creates_only_category_directories_witness :
  let w := started (<["song.mp3" := File (bytes_of "s")]> ∅)
             true true 0 100 in
  is_Some (entries (fs w) !! "music") ∨
  ("music" ∈ EXTENSIONS.*1 ∧
   ∃ kids, entries (fs (orgnanize_files w).2) !! "music"
           = Some (Dir true kids)).
Proof.
  intros w.
  apply (scan_creates_only_category_directories w (orgnanize_files w).2).
  - left. vm_compute. reflexivity.
  - vm_compute. eauto.
Defined.

Lemma for_each_file_conserves l has_files w b w' :
  for_each_file l has_files w = (Return b, w') →
  ∀ n c, entries (fs w) !! n = Some (File c) →
         entries (fs w') !! n = Some (File c) ∨
         ∃ dw kids d,
           entries (fs w') !! resolve (suffix n) = Some (Dir dw kids) ∧
           kids !! d = Some (LFile c).
Proof.
  revert has_files w. induction l as [|file rest IH];
    intros has_files w Hrun n c Hn.
  { apply (f_equal snd) in Hrun. cbn [snd] in Hrun. subst w'. by left. }
  apply for_each_file_step in Hrun
    as [[_ Hrest]|(c0 & w1 & Hfile & _ & Hstep & Hrest)]; [by eapply IH|].
  destruct (move_file_step _ _ _ _ _ Hfile Hstep) as (Hothers & Hself & _).
  destruct (decide (n = file)) as [->|Hne].
  - rewrite Hfile in Hn. injection Hn as ->.
    destruct Hself as [Hstay|(kids & d & Hdir & Hd)]; [by eapply IH|].
    right.
    pose proof (for_each_file_evolves _ _ _ _ _ Hrest) as (_ & Hdirs & _).
    destruct (Hdirs _ _ _ Hdir) as (kids' & Hdir' & Hsub).
    exists true, kids', d. split; [done|]. by eapply lookup_weaken.
  - eapply IH; [exact Hrest|]. by apply Hothers.
Qed.

(** X8. A scan loses nothing, whether dispatches fail or not: every
    regular file of the root is afterwards still in the root with its
    contents, or is an entry with those contents of the directory of
    its category; and every directory of the root is still there with
    at least the entries it had, unchanged. *)
Theorem scan_conserves_files w w' :
  (orgnanize_files w = (Return tt, w') ∨
   ∃ l, orgnanize_files_on l w = (Return tt, w')) →
  (∀ n c, entries (fs w) !! n = Some (File c) →
          entries (fs w') !! n = Some (File c) ∨
          ∃ dw kids d,
            entries (fs w') !! resolve (suffix n) = Some (Dir dw kids) ∧
            kids !! d = Some (LFile c)) ∧
  (∀ n dw kids, entries (fs w) !! n = Some (Dir dw kids) →
                ∃ kids', entries (fs w') !! n = Some (Dir dw kids') ∧
                         kids ⊆ kids').
Proof.
  intros Hscan.
  destruct (scan_any_loop w w' Hscan) as (l & w0 & b & w1 & Hloop & H0 & H1).
  rewrite H1, <- H0. split.
  - by eapply for_each_file_conserves.
  - by destruct (for_each_file_evolves _ _ _ _ _ Hloop) as (_ & Hdirs & _).
Qed.

(** A root whose "documents" directory is read-only: the dispatch of
    "a.pdf" fails, and the file is still in the root. *)
Lemma scan_conserves_files_witness :
  let w := started (<["a.pdf" := File (bytes_of "x")]>
                      (<["documents" := Dir false ∅]> ∅))
             true true 0 100 in
  let w' := (orgnanize_files w).2 in
  entries (fs w') !! "a.pdf" = Some (File (bytes_of "x")) ∧
  out w' = [MsgCannotMove PermissionError].
Proof.
  intros w w'.
  assert (orgnanize_files w = (Return tt, w')) as Hrun
    by (vm_compute; reflexivity).
  assert (entries (fs w) !! "a.pdf" = Some (File (bytes_of "x"))) as Hfile
    by (vm_compute; reflexivity).
  assert (resolve (suffix "a.pdf") = "documents") as Hres
    by (vm_compute; reflexivity).
  assert (entries (fs w') !! "documents" = Some (Dir false ∅)) as Hdoc
    by (vm_compute; reflexivity).
  destruct (proj1 (scan_conserves_files w w' (or_introl Hrun))
              "a.pdf" (bytes_of "x") Hfile)
    as [Hstay|(dw & kids & d & Hdir & Hd)].
  - split; [exact Hstay|]. vm_compute. reflexivity.
  - exfalso. rewrite Hres, Hdoc in Hdir.
    assert (kids = ∅) as -> by congruence.
    by rewrite lookup_empty in Hd.
Defined.

(** A listing without any visible regular file leaves the flag and the
    state as they are. *)
Lemma for_each_file_none_eligible l has_files w :
  (∀ n, n ∈ l → eligible w n = false) →
  for_each_file l has_files w = (Return has_files, w).
Proof.
  revert has_files. induction l as [|file rest IH]; intros has_files Hnone;
    [done|].
  rewrite for_each_file_cons, Hnone by apply list_elem_of_here.
  apply IH. intros n Hn. apply Hnone. by apply list_elem_of_further.
Qed.

Lemma for_each_file_readable l has_files w b w' :
  for_each_file l has_files w = (Return b, w') →
  readable (fs w') = readable (fs w).
Proof.
  revert has_files w. induction l as [|file rest IH]; intros has_files w Hrun.
  { apply (f_equal snd) in Hrun. cbn [snd] in Hrun. by subst w'. }
  apply for_each_file_step in Hrun
    as [[_ Hrest]|(c & w1 & Hfile & _ & Hstep & Hrest)]; [by eapply IH|].
  destruct (move_file_step _ _ _ _ _ Hfile Hstep) as (_ & _ & _ & Hr).
  rewrite <- Hr. by eapply IH.
Qed.

Lemma orgnanize_files_on_fs l w w' :
  orgnanize_files_on l w = (Return tt, w') →
  ∃ b w1, for_each_file l false w = (Return b, w1) ∧ fs w' = fs w1.
Proof.
  unfold orgnanize_files_on. rewrite bind_unfold. intros Hrun.
  destruct (for_each_file_returns l false w) as (b & w1 & Hloop).
  rewrite Hloop in Hrun. exists b, w1. split; [done|].
  destruct b; cbn [negb] in Hrun;
    apply (f_equal snd) in Hrun; cbn [snd] in Hrun; by subst w'.
Qed.

(** X9. Scanning is idempotent: right after a scan during which no
    dispatch failed, a second scan finds no file to dispatch, prints
    "No files to organize" and leaves the directory as it is. *)
Theorem second_scan_finds_nothing w w' :
  orgnanize_files w = (Return tt, w') →
  failures w' = failures w →
  orgnanize_files w'
  = (Return tt,
     printed MsgNoFiles
       (mk_world (fs w') (now w') (out w') (handler w') (probes w')
          (S (scans w')))).
Proof.
  intros Hrun Hquiet.
  assert (∀ n c, entries (fs w') !! n = Some (File c) →
                 startswith "." n = true) as Hhidden.
  { destruct (scan_loop w w' (or_introl Hrun))
      as (l & w0 & b & w1 & Hloop & Hcover & He0 & Hf0 & He1 & Hf1).
    rewrite He1. intros n c Hn.
    eapply for_each_file_leaves_hidden; [exact Hloop|congruence|exact Hn|].
    apply Hcover. rewrite <- He0.
    pose proof (for_each_file_evolves _ _ _ _ _ Hloop) as (Hfiles & _ & _).
    apply Hfiles in Hn. eauto. }
  assert (readable (fs w') = true) as Hreadable.
  { rewrite orgnanize_files_unfold in Hrun. cbn zeta in Hrun.
    destruct (readable (fs w)) eqn:Hr; [|done].
    apply orgnanize_files_on_fs in Hrun as (b & w1 & Hloop & ->).
    apply for_each_file_readable in Hloop. by rewrite Hloop. }
  rewrite orgnanize_files_unfold. cbn zeta. rewrite Hreadable.
  unfold orgnanize_files_on. rewrite bind_unfold.
  rewrite for_each_file_none_eligible; [done|].
  intros n _. unfold eligible. cbn [fs].
  destruct (entries (fs w') !! n) as [[c|dw kids]|] eqn:Hn; try done.
  by rewrite (Hhidden n c Hn).
Qed.

Lemma second_scan_finds_nothing_witness :
  let w := started (<["a.pdf" := File (bytes_of "x")]>
                      (<[".profile" := File (bytes_of "y")]> ∅))
             true true 0 100 in
  let w' := (orgnanize_files w).2 in
  fs (orgnanize_files w').2 = fs w' ∧
  out (orgnanize_files w').2 = out w' ++ [MsgNoFiles].
Proof.
  intros w w'.
  rewrite (second_scan_finds_nothing w w');
    [by split|vm_compute; reflexivity|vm_compute; reflexivity].
Defined.

Lemma move_file_blocked file extension w c c' :
  entries (fs w) !! file = Some (File c) →
  entries (fs w) !! extension = Some (File c') →
  move_file file extension w
  = (Return tt, printed (MsgCannotMove NotADirectoryError) w).
Proof.
  intros Hfile Hext.
  by rewrite move_file_of_try,
    (move_file_try_not_directory _ _ _ _ _ Hfile Hext).
Qed.

Lemma for_each_file_keeps_blocker l has_files w b w' n c :
  for_each_file l has_files w = (Return b, w') →
  entries (fs w) !! n = Some (File c) →
  resolve (suffix n) = n →
  entries (fs w') !! n = Some (File c).
Proof.
  revert has_files w. induction l as [|file rest IH];
    intros has_files w Hrun Hn Hself.
  { apply (f_equal snd) in Hrun. cbn [snd] in Hrun. by subst w'. }
  apply for_each_file_step in Hrun
    as [[_ Hrest]|(c0 & w1 & Hfile & _ & Hstep & Hrest)]; [by eapply IH|].
  eapply IH; [exact Hrest| |done].
  destruct (decide (n = file)) as [->|Hne].
  - rewrite Hself, (move_file_blocked _ _ _ _ _ Hfile Hfile) in Hstep.
    apply (f_equal snd) in Hstep. cbn [snd] in Hstep. by subst w1.
  - destruct (move_file_step _ _ _ _ _ Hfile Hstep) as (Hothers & _).
    by apply Hothers.
Qed.

(** X10. A regular file that sits on the name of a category directory
    blocks that category: every dispatch to it fails with
    [NotADirectoryError], prints the diagnostic and changes nothing
    else. A file that resolves to its own name (a file called "others"
    without extension) is therefore never moved by a scan, and neither
    is any file of that category. *)
Theorem regular_file_blocks_category :
  (∀ w file extension c c',
     entries (fs w) !! file = Some (File c) →
     entries (fs w) !! extension = Some (File c') →
     move_file file extension w
     = (Return tt, printed (MsgCannotMove NotADirectoryError) w)) ∧
  (∀ w w' n c,
     (orgnanize_files w = (Return tt, w') ∨
      ∃ l, orgnanize_files_on l w = (Return tt, w')) →
     entries (fs w) !! n = Some (File c) →
     resolve (suffix n) = n →
     entries (fs w') !! n = Some (File c) ∧
     ∀ file c', entries (fs w) !! file = Some (File c') →
                resolve (suffix file) = n →
                entries (fs w') !! file = Some (File c')).
Proof.
  split; [intros w file extension c c'; apply move_file_blocked|].
  intros w w' n c Hscan Hn Hself.
  destruct (scan_any_loop w w' Hscan) as (l & w0 & b & w1 & Hloop & H0 & H1).
  rewrite <- H0 in Hn. rewrite H1.
  pose proof (for_each_file_keeps_blocker _ _ _ _ _ _ _ Hloop Hn Hself)
    as Hstays.
  split; [done|]. intros file c' Hfile Hres. rewrite <- H0 in Hfile.
  destruct (for_each_file_conserves _ _ _ _ _ Hloop _ _ Hfile)
    as [?|(dw & kids & d & Hdir & _)]; [done|].
  rewrite Hres in Hdir. congruence.
Qed.

Lemma regular_file_blocks_category_witness :
  let w := started (<["others" := File (bytes_of "o")]>
                      (<["notes" := File (bytes_of "n")]> ∅))
             true true 0 100 in
  let w' := (orgnanize_files w).2 in
  entries (fs w') !! "others" = Some (File (bytes_of "o")) ∧
  entries (fs w') !! "notes" = Some (File (bytes_of "n")).
Proof.
  intros w w'.
  assert (orgnanize_files w = (Return tt, w')) as Hrun
    by (vm_compute; reflexivity).
  assert (entries (fs w) !! "others" = Some (File (bytes_of "o"))) as Ho
    by (vm_compute; reflexivity).
  assert (entries (fs w) !! "notes" = Some (File (bytes_of "n"))) as Hn
    by (vm_compute; reflexivity).
  assert (resolve (suffix "others") = "others") as Hro
    by (vm_compute; reflexivity).
  assert (resolve (suffix "notes") = "others") as Hrn
    by (vm_compute; reflexivity).
  destruct (proj2 regular_file_blocks_category w w' "others" (bytes_of "o")
              (or_introl Hrun) Ho Hro) as [Hstay Hall].
  split; [exact Hstay|]. exact (Hall "notes" (bytes_of "n") Hn Hrn).
Defined.

(** X11. A scan works on the listing it took: a regular file that is
    not in the listing, such as one created after the listing was
    taken, is left where it is. *)
Theorem scan_ignores_unlisted l w w' :
  orgnanize_files_on l w = (Return tt, w') →
  ∀ n c, entries (fs w) !! n = Some (File c) → n ∉ l →
         entries (fs w') !! n = Some (File c).
Proof.
  intros Hrun n c Hn Hnotin.
  apply orgnanize_files_on_fs in Hrun as (b & w1 & Hloop & ->).
  revert Hn Hloop. generalize false. revert w.
  induction l as [|file rest IH]; intros w has_files Hn Hrun.
  { apply (f_equal snd) in Hrun. cbn [snd] in Hrun. by subst w1. }
  apply not_elem_of_cons in Hnotin as [Hne Hnotin].
  apply for_each_file_step in Hrun
    as [[_ Hrest]|(c0 & w2 & Hfile & _ & Hstep & Hrest)]; [by eapply IH|].
  eapply IH; [done| |exact Hrest].
  destruct (move_file_step _ _ _ _ _ Hfile Hstep) as (Hothers & _).
  by apply Hothers.
Qed.

Lemma scan_ignores_unlisted_witness :
  let w := started (<["a.pdf" := File (bytes_of "x")]>
                      (<["late.pdf" := File (bytes_of "y")]> ∅))
             true true 0 100 in
  entries (fs (orgnanize_files_on ["a.pdf"] w).2) !! "late.pdf"
  = Some (File (bytes_of "y")).
Proof.
  intros w.
  apply (scan_ignores_unlisted ["a.pdf"] w).
  - vm_compute. reflexivity.
  - vm_compute. reflexivity.
  - intros Hin. apply elem_of_cons in Hin as [Heq|Hin]; [done|].
    by apply elem_of_nil in Hin.
Defined.

(** Each dispatch prints nothing or one failure diagnostic. *)
Lemma move_file_out file extension w w1 c :
  entries (fs w) !! file = Some (File c) →
  move_file file extension w = (Return tt, w1) →
  out w1 = out w ∨ ∃ e, out w1 = out w ++ [MsgCannotMove e].
Proof.
  intros Hfile Hrun.
  destruct (move_file_regular file extension w c Hfile)
    as [(kids & d & _ & _ & _ & Hrun')|(e & w0 & _ & Hrun' & Hw0)];
    rewrite Hrun' in Hrun; clear Hrun';
    apply (f_equal snd) in Hrun; cbn [snd] in Hrun; subst w1.
  - by left.
  - right. exists e. by destruct Hw0 as [->|(kids & d & _ & _ & ->)].
Qed.

Lemma for_each_file_flag l has_files w b w' :
  for_each_file l has_files w = (Return b, w') →
  b = has_files || existsb (eligible w) l.
Proof.
  revert has_files w. induction l as [|file rest IH]; intros has_files w Hrun.
  { injection Hrun as <- _. by rewrite orb_false_r. }
  cbn [existsb].
  apply for_each_file_step in Hrun
    as [[Hel Hrest]|(c & w1 & Hfile & Hvisible & Hstep & Hrest)].
  - rewrite Hel. by apply IH.
  - apply IH in Hrest. rewrite Hrest. unfold eligible.
    rewrite Hfile, Hvisible. cbn. by rewrite orb_true_r.
Qed.

Lemma for_each_file_out l has_files w b w' :
  for_each_file l has_files w = (Return b, w') →
  ∃ msgs, out w' = out w ++ msgs ∧
          Forall (λ msg, ∃ e, msg = MsgCannotMove e) msgs ∧
          (length msgs ≤ length l)%nat.
Proof.
  revert has_files w. induction l as [|file rest IH]; intros has_files w Hrun.
  { apply (f_equal snd) in Hrun. cbn [snd] in Hrun. subst w'.
    exists []. by rewrite app_nil_r. }
  apply for_each_file_step in Hrun
    as [[_ Hrest]|(c & w1 & Hfile & _ & Hstep & Hrest)].
  - destruct (IH _ _ Hrest) as (msgs & Hout & Hall & Hlen).
    exists msgs. repeat split; [done|done|cbn [length]; lia].
  - destruct (IH _ _ Hrest) as (msgs & Hout & Hall & Hlen).
    destruct (move_file_out _ _ _ _ _ Hfile Hstep) as [Hsame|[e Hone]].
    + exists msgs. rewrite Hout, Hsame.
      repeat split; [done|cbn [length]; lia].
    + exists (MsgCannotMove e :: msgs). rewrite Hout, Hone.
      rewrite <- app_assoc. repeat split.
      * apply Forall_cons. split; [eauto|done].
      * cbn [length]. lia.
Qed.

(** X12. When some entry of the listing is a visible regular file, the
    scan does not print "No files to organize": the only messages it
    adds are dispatch diagnostics, at most one for each listed entry. *)
Theorem scan_with_files_prints_only_diagnostics l w :
  existsb (eligible w) l = true →
  ∃ w' msgs,
    orgnanize_files_on l w = (Return tt, w') ∧
    out w' = out w ++ msgs ∧
    Forall (λ msg, ∃ e, msg = MsgCannotMove e) msgs ∧
    (length msgs ≤ length l)%nat.
Proof.
  intros Hsome. unfold orgnanize_files_on. rewrite bind_unfold.
  destruct (for_each_file_returns l false w) as (b & w1 & Hloop).
  rewrite Hloop.
  pose proof (for_each_file_flag _ _ _ _ _ Hloop) as Hb.
  rewrite Hsome in Hb. cbn in Hb. subst b. cbn [negb].
  destruct (for_each_file_out _ _ _ _ _ Hloop) as (msgs & Hout & Hall & Hlen).
  by exists w1, msgs.
Qed.

Lemma scan_with_files_prints_only_diagnostics_witness :
  let w := started (<["a.pdf" := File (bytes_of "x")]>
                      (<["documents" := Dir false ∅]> ∅))
             true true 0 100 in
  ∃ w' msgs,
    orgnanize_files_on ["a.pdf"; "documents"] w = (Return tt, w') ∧
    out w' = out w ++ msgs ∧
    Forall (λ msg, ∃ e, msg = MsgCannotMove e) msgs ∧
    (length msgs ≤ 2)%nat.
Proof.
  intros w.
  apply (scan_with_files_prints_only_diagnostics ["a.pdf"; "documents"] w).
  vm_compute. reflexivity.
Defined.

(** X16. [move_file] makes the category directory before it looks at
    the source: when the source is not in the root (it was moved or
    deleted in the meantime) the move fails with [FileNotFoundError]
    and the diagnostic is printed, but in a writable root a category
    directory that was absent has been created, empty, and stays. *)
Theorem missing_source_leaves_directory file extension w :
  file ≠ extension →
  entries (fs w) !! file = None →
  entries (fs w) !! extension = None →
  writable (fs w) = true →
  move_file file extension w
  = (Return tt,
     printed (MsgCannotMove FileNotFoundError)
       (with_entries (<[extension := Dir true ∅]> (entries (fs w))) w)).
Proof.
  intros Hne Hfile Hext Hw. rewrite move_file_of_try. unfold move_file_try.
  rewrite bind_unfold. unfold path_exists, gets. rewrite Hext.
  rewrite bool_decide_eq_false_2 by (by intros [? ?]). cbn [negb].
  rewrite bind_unfold. unfold mkdir at 1. rewrite Hext, Hw.
  set (w1 := with_entries _ w).
  assert (entries (fs w1) !! extension = Some (Dir true ∅)) as Hdir
    by (unfold w1; cbn [with_entries with_fs fs entries];
        apply lookup_insert_eq).
  assert (entries (fs w1) !! file = None) as Hfile1.
  { unfold w1. cbn [with_entries with_fs fs entries].
    by rewrite lookup_insert_ne. }
  rewrite bind_unfold. unfold probe_budget, gets. rewrite Hdir.
  rewrite bind_unfold.
  rewrite (while_destination_exists_free _ _ _ _ _ true ∅ Hdir)
    by apply lookup_empty.
  unfold shutil_move. by rewrite Hfile1.
Qed.

Lemma missing_source_leaves_directory_witness :
  let r := move_file "gone.pdf" "documents" (started ∅ true true 0 100) in
  r.1 = Return tt ∧
  entries (fs r.2) !! "documents" = Some (Dir true ∅) ∧
  out r.2 = [MsgCannotMove FileNotFoundError].
Proof.
  intros r. unfold r.
  rewrite (missing_source_leaves_directory "gone.pdf" "documents"
             (started ∅ true true 0 100)); [|discriminate|reflexivity..].
  split; [reflexivity|]. split; [|reflexivity].
  vm_compute. reflexivity.
Defined.

(** ** Edge cases of the handler *)

Section Edges.

Variable ambient : Z → Z → filesystem → filesystem.

(** X13. The intervals are not validated. With a negative
    [stability_float] the probe of a path that exists raises
    [ValueError] out of [on_created] (only [FileNotFoundError] is
    caught). With a negative [delay] an accepted trigger stores the
    timestamp and then raises [ValueError] at the settle sleep, so no
    scan is ever run. *)
Theorem negative_intervals_raise ev w :
  (is_directory ev = false →
   suffix (src_path ev) ∉ TEMPORARY_EXTENSIONS →
   stability_float (handler w) < 0 →
   is_Some (st_size (fs w) (src_path ev)) →
   on_created ambient ev w
   = (Raise ValueError,
      mk_world (fs w) (now w) (out w) (handler w) (S (probes w))
        (scans w))) ∧
  (delay (handler w) < 0 →
   accepted ambient ev w →
   (on_created ambient ev w).1 = Raise ValueError ∧
   scans (on_created ambient ev w).2 = scans w ∧
   last_event_time (handler (on_created ambient ev w).2)
   = now (is_file_stable ambient (src_path ev) w).2).
Proof.
  split.
  - intros Hdir Htemp Hneg [n0 Hsize].
    rewrite on_created_eq, Hdir. rewrite bool_decide_eq_false_2 by done.
    rewrite is_file_stable_eq. cbn zeta. rewrite Hsize.
    by rewrite bool_decide_eq_true_2.
  - intros Hneg (Hdir & Htemp & Hstable & Hgt). unfold elapsed_at in Hgt.
    rewrite on_created_eq, Hdir. rewrite bool_decide_eq_false_2 by done.
    pose proof (is_file_stable_frame ambient (src_path ev) w)
      as (Hh & Hs & _).
    destruct (is_file_stable ambient (src_path ev) w) as [[[]|e|] w1];
      cbn [fst snd] in *; try done.
    rewrite Hh. rewrite bool_decide_eq_true_2 by done.
    cbn zeta. rewrite bind_unfold. unfold time_sleep.
    rewrite bool_decide_eq_true_2 by done.
    cbn [fst snd]. repeat split; done.
Qed.

End Edges.

Lemma negative_intervals_raise_witness :
  (on_created quiet (mk_event false "a.pdf")
     (mk_world (mk_fs (<["a.pdf" := File (bytes_of "x")]> ∅) true true)
        100 [] (mk_handler (-1) 5 0) 0 0)).1
  = Raise ValueError.
Proof.
  rewrite (proj1 (negative_intervals_raise quiet (mk_event false "a.pdf")
             (mk_world (mk_fs (<["a.pdf" := File (bytes_of "x")]> ∅)
                          true true)
                100 [] (mk_handler (-1) 5 0) 0 0))).
  - reflexivity.
  - reflexivity.
  - by_compute.
  - reflexivity.
  - vm_compute. eauto.
Defined.

(** With no other process at work, the probe leaves the directory as
    it is. *)
Lemma is_file_stable_quiet_fs file_path w :
  fs (is_file_stable quiet file_path w).2 = fs w.
Proof.
  rewrite is_file_stable_eq. cbn zeta.
  destruct (st_size (fs w) file_path) as [n0|]; [|done].
  destruct (bool_decide (stability_float (handler w) < 0)); [done|].
  cbn [fs]. unfold quiet.
  by destruct (st_size (fs w) file_path) as [n1|].
Qed.

(** X14. Only an accepted trigger touches the directory: with no other
    process at work, after any other creation event the watched
    directory is exactly as before. *)
Theorem only_accepted_triggers_touch_the_directory ev w :
  fs (on_created quiet ev w).2 = fs w ∨ accepted quiet ev w.
Proof.
  rewrite on_created_eq. unfold accepted, elapsed_at.
  pose proof (is_file_stable_quiet_fs (src_path ev) w) as Hfs.
  pose proof (is_file_stable_frame quiet (src_path ev) w) as (Hh & _ & _).
  destruct (is_directory ev); [by left|].
  destruct (decide (suffix (src_path ev) ∈ TEMPORARY_EXTENSIONS))
    as [Htemp|Htemp].
  { rewrite bool_decide_eq_true_2 by done. by left. }
  rewrite bool_decide_eq_false_2 by done.
  destruct (is_file_stable quiet (src_path ev) w) as [[[]|e|] w1];
    cbn [fst snd] in *; try (by left).
  rewrite Hh.
  destruct (decide (now w1 - last_event_time (handler w) > delay (handler w)))
    as [Hgt|Hle].
  - right. by repeat split.
  - rewrite bool_decide_eq_false_2 by done. by left.
Qed.

Lemma only_accepted_triggers_touch_the_directory_witness :
  let w := started (<["a.pdf" := File (bytes_of "x")]> ∅) true true 100 101 in
  fs (on_created quiet (mk_event false "a.pdf") w).2 = fs w.
Proof.
  intros w.
  destruct (only_accepted_triggers_touch_the_directory
              (mk_event false "a.pdf") w) as [Hsame|(_ & _ & _ & Hgt)].
  - exact Hsame.
  - exfalso. vm_compute in Hgt. discriminate.
Defined.

(** ** Starvation *)






(** ** Bursts of events and the scan they trigger *)

Lemma failures_out w w' : out w' = out w → failures w' = failures w.
Proof. unfold failures. by intros ->. Qed.

(** One dispatch makes no directory but the one it was sent to. *)
Lemma move_file_dirs file extension w w1 c :
  entries (fs w) !! file = Some (File c) →
  move_file file extension w = (Return tt, w1) →
  ∀ n dw kids, entries (fs w1) !! n = Some (Dir dw kids) →
    n = extension ∨ ∃ kids0, entries (fs w) !! n = Some (Dir dw kids0).
Proof.
  intros Hfile Hrun n dw kids Hn.
  destruct (decide (n = extension)) as [->|Hne]; [by left|right].
  destruct (move_file_regular file extension w c Hfile)
    as [(kids1 & d & _ & Hcat & _ & Hrun')|(e & w0 & _ & Hrun' & Hw0)];
    rewrite Hrun' in Hrun; clear Hrun';
    apply (f_equal snd) in Hrun; cbn [snd] in Hrun; subst w1.
  - cbn [with_entries with_fs fs entries] in Hn.
    rewrite lookup_insert_ne in Hn by done.
    apply lookup_delete_Some in Hn as [_ Hn]. eauto.
  - destruct Hw0 as [->|(kids1 & d & Hdir & _ & ->)].
    + unfold printed, print, modify in Hn. cbn [snd fs] in Hn. eauto.
    + unfold printed, print, modify in Hn.
      cbn [snd with_entries with_fs fs entries] in Hn.
      rewrite lookup_insert_ne in Hn by done. eauto.
Qed.

Lemma for_each_file_dirs l has_files w b w' :
  for_each_file l has_files w = (Return b, w') →
  ∀ n dw kids, entries (fs w') !! n = Some (Dir dw kids) →
    n ∈ EXTENSIONS.*1 ∨ ∃ kids0, entries (fs w) !! n = Some (Dir dw kids0).
Proof.
  revert has_files w. induction l as [|file rest IH];
    intros has_files w Hrun n dw kids Hn.
  { apply (f_equal snd) in Hrun. cbn [snd] in Hrun. subst w'. eauto. }
  apply for_each_file_step in Hrun
    as [[_ Hrest]|(c & w1 & Hfile & _ & Hstep & Hrest)]; [by eapply IH|].
  destruct (IH _ _ Hrest n dw kids Hn) as [?|[kids1 Hn1]]; [by left|].
  destruct (move_file_dirs _ _ _ _ _ Hfile Hstep _ _ _ Hn1) as [->|?];
    [|by right].
  left. apply resolve_in_categories.
Qed.

(** After a scan during which no dispatch failed, a name that is no
    category name and was missing or a visible regular file is not in
    the root. *)
Lemma scan_clears w w' n :
  orgnanize_files w = (Return tt, w') →
  failures w' = failures w →
  n ∉ EXTENSIONS.*1 →
  (entries (fs w) !! n = None ∨
   ∃ c, entries (fs w) !! n = Some (File c) ∧ startswith "." n = false) →
  entries (fs w') !! n = None.
Proof.
  intros Hrun Hquiet Hcat Hn.
  destruct (scan_loop w w' (or_introl Hrun))
    as (l & w0 & b & w1 & Hloop & Hcover & He0 & Hf0 & He1 & Hf1).
  rewrite He1.
  destruct (entries (fs w1) !! n) as [[c'|dw kids]|] eqn:Hn1; [| |done];
    exfalso.
  - pose proof (for_each_file_evolves _ _ _ _ _ Hloop) as (Hfiles & _ & _).
    pose proof (Hfiles _ _ Hn1) as Hn0. rewrite He0 in Hn0.
    assert (startswith "." n = true) as Hhidden.
    { eapply for_each_file_leaves_hidden;
        [exact Hloop|congruence|exact Hn1|]. apply Hcover. eauto. }
    destruct Hn as [Hn|(c & Hn & Hvisible)]; congruence.
  - destruct (for_each_file_dirs _ _ _ _ _ Hloop _ _ _ Hn1)
      as [?|[kids0 Hn0]]; [done|].
    rewrite He0 in Hn0.
    destruct Hn as [Hn|(c & Hn & _)]; congruence.
Qed.

Lemma orgnanize_files_failures w :
  (failures w ≤ failures (orgnanize_files w).2)%nat.
Proof.
  rewrite orgnanize_files_unfold. cbn zeta.
  destruct (readable (fs w)); [|done].
  set (w0 := mk_world _ _ _ _ _ _).
  destruct (orgnanize_files_on_returns ((map_to_list (entries (fs w))).*1) w0)
    as [w' Hrun].
  rewrite Hrun. cbn [snd].
  apply orgnanize_files_on_loop in Hrun as (b & w1 & Hloop & _ & ->).
  by pose proof (for_each_file_evolves _ _ _ _ _ Hloop) as (_ & _ & Hle).
Qed.

Lemma is_file_stable_quiet_out file_path w :
  out (is_file_stable quiet file_path w).2 = out w.
Proof.
  rewrite is_file_stable_eq. cbn zeta.
  destruct (st_size (fs w) file_path) as [n0|]; [|done].
  destruct (bool_decide (stability_float (handler w) < 0)); [done|].
  cbn [fs]. unfold quiet.
  by destruct (st_size (fs w) file_path) as [n1|].
Qed.

(** One delivery with no other process at work: either the directory,
    the scan counter and the diagnostics are as before, or the delivery
    ends in a scan started from such a state. *)
Lemma deliver_quiet arrival w :
  (fs (deliver quiet arrival w).2 = fs w ∧
   scans (deliver quiet arrival w).2 = scans w ∧
   failures (deliver quiet arrival w).2 = failures w) ∨
  (∃ w3, fs w3 = fs w ∧ scans w3 = scans w ∧ failures w3 = failures w ∧
         deliver quiet arrival w = orgnanize_files w3).
Proof.
  rewrite deliver_eq, wait_until_eq. cbn [snd].
  set (w0 := if bool_decide (now w < arrival.1) then _ else w).
  assert (fs w0 = fs w ∧ scans w0 = scans w ∧ out w0 = out w)
    as (Hfs0 & Hs0 & Ho0).
  { unfold w0. by destruct (bool_decide (now w < arrival.1)). }
  clearbody w0.
  rewrite on_created_eq.
  destruct (is_directory arrival.2).
  { left. cbn [snd]. split; [done|]. split; [done|]. by apply failures_out. }
  destruct (bool_decide (suffix (src_path arrival.2) ∈ TEMPORARY_EXTENSIONS)).
  { left. cbn [snd]. rewrite failures_printed. cbn [is_failure].
    rewrite (failures_out w w0 Ho0).
    unfold printed, print, modify. cbn [snd fs scans].
    split; [done|]. split; [done|]. lia. }
  pose proof (is_file_stable_quiet_fs (src_path arrival.2) w0) as Hfs1.
  pose proof (is_file_stable_quiet_out (src_path arrival.2) w0) as Ho1.
  pose proof (is_file_stable_frame quiet (src_path arrival.2) w0)
    as (_ & Hs1 & _).
  destruct (is_file_stable quiet (src_path arrival.2) w0) as [[[]|e|] w1];
    cbn [fst snd] in *.
  - set (w2 := with_last_event_time (now w1) w1).
    assert (fs w2 = fs w ∧ scans w2 = scans w ∧ out w2 = out w)
      as (Hfs2 & Hs2 & Ho2).
    { unfold w2. cbn [with_last_event_time fs scans out].
      repeat split; congruence. }
    clearbody w2.
    destruct (bool_decide (now w1 - last_event_time (handler w1)
                           > delay (handler w1))).
    + rewrite bind_unfold. unfold time_sleep.
      assert (failures (printed MsgDownloadComplete w2) = failures w) as Hf.
      { rewrite failures_printed. cbn [is_failure].
        rewrite (failures_out w w2 Ho2). lia. }
      destruct (bool_decide (delay (handler w1) < 0)).
      * left. cbn [snd]. unfold printed, print, modify in *.
        cbn [snd fs scans] in *. by repeat split.
      * right. eexists. split; [|split; [|split; [|reflexivity]]].
        -- unfold quiet, printed, print, modify. cbn [snd fs]. done.
        -- unfold printed, print, modify. cbn [snd scans]. done.
        -- rewrite <- Hf. apply failures_out. reflexivity.
    + left. cbn [snd]. split; [done|]. split; [done|]. by apply failures_out.
  - left. rewrite failures_printed. cbn [is_failure].
    unfold printed, print, modify. cbn [snd fs scans].
    split; [congruence|]. split; [congruence|].
    rewrite (failures_out w w1) by congruence. lia.
  - left. split; [congruence|]. split; [congruence|].
    apply failures_out. congruence.
  - left. split; [congruence|]. split; [congruence|].
    apply failures_out. congruence.
Qed.

Lemma dispatch_events_cons ambient arrival rest w :
  dispatch_events ambient (arrival :: rest) w
  = match deliver ambient arrival w with
    | (Return _, w1) => dispatch_events ambient rest w1
    | (Raise e, w1) => (Raise e, w1)
    | (Timeout, w1) => (Timeout, w1)
    end.
Proof.
  cbn [dispatch_events]. rewrite bind_unfold.
  by destruct (deliver ambient arrival w) as [[[]|e|] w1].
Qed.

Lemma dispatch_events_failures queue w :
  (failures w ≤ failures (dispatch_events quiet queue w).2)%nat.
Proof.
  revert w. induction queue as [|arrival rest IH]; intros w; [done|].
  rewrite dispatch_events_cons.
  assert (failures w ≤ failures (deliver quiet arrival w).2)%nat as Hstep.
  { destruct (deliver_quiet arrival w)
      as [(_ & _ & Hf)|(w3 & _ & _ & Hf & ->)]; [lia|].
    rewrite <- Hf. apply orgnanize_files_failures. }
  destruct (deliver quiet arrival w) as [[[]|e|] w1]; cbn [snd] in *;
    [|done..].
  specialize (IH w1). lia.
Qed.

(** An event for a path that is gone changes nothing. *)
Lemma deliver_spent arrival w :
  spent_event (fs w) arrival →
  fs (deliver quiet arrival w).2 = fs w ∧
  scans (deliver quiet arrival w).2 = scans w ∧
  failures (deliver quiet arrival w).2 = failures w.
Proof.
  intros Hspent.
  rewrite deliver_eq, wait_until_eq. cbn [snd].
  set (w0 := if bool_decide (now w < arrival.1) then _ else w).
  assert (fs w0 = fs w ∧ scans w0 = scans w ∧ out w0 = out w)
    as (Hfs0 & Hs0 & Ho0).
  { unfold w0. by destruct (bool_decide (now w < arrival.1)). }
  clearbody w0.
  rewrite on_created_eq.
  destruct (is_directory arrival.2) eqn:Hdir.
  { cbn [snd]. split; [done|]. split; [done|]. by apply failures_out. }
  destruct (decide (suffix (src_path arrival.2) ∈ TEMPORARY_EXTENSIONS))
    as [Htemp|Htemp].
  { rewrite bool_decide_eq_true_2 by done.
    cbn [snd]. rewrite failures_printed. cbn [is_failure].
    rewrite (failures_out w w0 Ho0).
    unfold printed, print, modify. cbn [snd fs scans].
    split; [done|]. split; [done|]. lia. }
  rewrite bool_decide_eq_false_2 by done.
  destruct Hspent as [?|[?|Hgone]]; [congruence|done|].
  assert (st_size (fs w0) (src_path arrival.2) = None) as Hst
    by (unfold st_size; by rewrite Hfs0, Hgone).
  rewrite is_file_stable_eq. cbn zeta. rewrite Hst.
  cbn [snd]. rewrite failures_printed. cbn [is_failure].
  unfold printed, print, modify. cbn [snd fs scans].
  split; [done|]. split; [done|].
  rewrite (failures_out w (mk_world (fs w0) (now w0) (out w0) (handler w0)
                             (S (probes w0)) (scans w0))) by done.
  lia.
Qed.

(** Events for paths that are gone change nothing. *)
Lemma dispatch_events_spent queue w :
  Forall (spent_event (fs w)) queue →
  fs (dispatch_events quiet queue w).2 = fs w ∧
  scans (dispatch_events quiet queue w).2 = scans w ∧
  failures (dispatch_events quiet queue w).2 = failures w.
Proof.
  revert w. induction queue as [|arrival rest IH]; intros w Hall; [done|].
  apply Forall_cons in Hall as [Hhere Hall].
  rewrite dispatch_events_cons.
  destruct (deliver_spent arrival w Hhere) as (Hfs & Hs & Hf).
  destruct (deliver quiet arrival w) as [[[]|e|] w1]; cbn [snd] in *;
    [|done..].
  destruct (IH w1) as (Hfs' & Hs' & Hf'); [by rewrite Hfs|].
  repeat split; congruence.
Qed.

(** The scan of an accepted trigger that fails on no file makes every
    event of the burst a spent one. *)
Lemma burst_event_spent w w' arrival :
  orgnanize_files w = (Return tt, w') →
  failures w' = failures w →
  burst_event (fs w) arrival →
  spent_event (fs w') arrival.
Proof.
  intros Hrun Hquiet [?|[?|[Hcat Hn]]]; [by left|by right; left|].
  right. right. by eapply scan_clears.
Qed.

Lemma dispatch_events_burst queue w :
  Forall (burst_event (fs w)) queue →
  failures (dispatch_events quiet queue w).2 = failures w →
  (scans (dispatch_events quiet queue w).2 ≤ S (scans w))%nat.
Proof.
  revert w. induction queue as [|arrival rest IH]; intros w Hall Hquiet;
    [cbn; lia|].
  apply Forall_cons in Hall as [Hhere Hall].
  rewrite dispatch_events_cons in *.
  destruct (deliver_quiet arrival w)
    as [(Hfs & Hs & Hf)|(w3 & Hfs3 & Hs3 & Hf3 & Hrun)].
  - destruct (deliver quiet arrival w) as [[[]|e|] w1]; cbn [snd] in *;
      [|lia..].
    rewrite <- Hs. apply IH; [by rewrite Hfs|congruence].
  - pose proof (orgnanize_files_frame w3) as (Hsc & _).
    pose proof (orgnanize_files_failures w3) as Hle.
    rewrite <- Hrun in Hsc, Hle.
    destruct (deliver quiet arrival w) as [[[]|e|] w4]; cbn [snd] in *;
      [|lia..].
    pose proof (dispatch_events_failures rest w4) as Hle'.
    destruct (dispatch_events_spent rest w4) as (_ & Hs' & _); [|lia].
    eapply Forall_impl; [exact Hall|].
    intros a Ha. rewrite <- Hfs3 in Ha.
    eapply burst_event_spent; [symmetry; exact Hrun|lia|exact Ha].
Qed.

(** C1, as the code has it. A scan is triggered only on an accepted
    trigger: an event for a stable, non-temporary path whose elapsed
    time, the clock read after the stability probe minus the stored
    timestamp, exceeds [delay]; with a non-negative [delay] every
    accepted trigger does run one scan. A sequence of events, whatever
    their arrival times, triggers at most one scan when no other
    process changes the directory, no dispatch fails, and every event
    is one the scan takes care of: an event for a directory, for a
    temporary extension, or for a path that is no category name and is
    missing from the root or a regular file there whose name does not
    start with a dot. The scan of the first accepted trigger moves
    every such file, and the later events find their paths gone. *)
Theorem burst_triggers_at_most_one_scan :
  (∀ ambient ev w,
     scans (on_created ambient ev w).2 = scans w ∨
     (scans (on_created ambient ev w).2 = S (scans w) ∧
      accepted ambient ev w)) ∧
  (∀ ambient ev w,
     0 ≤ delay (handler w) → accepted ambient ev w →
     scans (on_created ambient ev w).2 = S (scans w)) ∧
  (∀ queue w,
     Forall (burst_event (fs w)) queue →
     failures (dispatch_events quiet queue w).2 = failures w →
     (scans (dispatch_events quiet queue w).2 ≤ S (scans w))%nat).
Proof.
  split; [apply on_created_scans|]. split; [apply on_created_accepted|].
  apply dispatch_events_burst.
Qed.

(** Two files arrive one second apart, long after the last trigger, and
    a directory is created next to them; the scan triggered by the
    first event moves both files, so the event of the second file and a
    late second event for the first find their paths gone: one scan. *)
Lemma burst_triggers_at_most_one_scan_witness :
  let w := started (<["a.pdf" := File (bytes_of "x")]>
                      (<["b.pdf" := File (bytes_of "y")]> ∅))
             true true 0 100 in
  let r := dispatch_events quiet
             [(100, mk_event false "a.pdf"); (101, mk_event false "b.pdf");
              (102, mk_event true "projects");
              (200, mk_event false "a.pdf")]
             w in
  (scans r.2 ≤ 1)%nat.
Proof.
  intros w r.
  apply (proj2 (proj2 burst_triggers_at_most_one_scan)
           [(100, mk_event false "a.pdf"); (101, mk_event false "b.pdf");
            (102, mk_event true "projects");
            (200, mk_event false "a.pdf")] w).
  - repeat apply Forall_cons_2; try apply Forall_nil_2.
    + right. right. split; [by_compute|]. right.
      exists (bytes_of "x"). split; vm_compute; reflexivity.
    + right. right. split; [by_compute|]. right.
      exists (bytes_of "y"). split; vm_compute; reflexivity.
    + left. reflexivity.
    + right. right. split; [by_compute|]. right.
      exists (bytes_of "x"). split; vm_compute; reflexivity.
  - vm_compute. reflexivity.
Defined.

(** C1 as stated fails: two stable files with the extension ".pdf" are
    created one second apart, the second a hidden one that the first
    scan leaves in place. The first event is accepted at time 101 and
    its handler sleeps until 106; the second event, handled next, reads
    the clock at 107, six seconds after the stored timestamp, and is
    accepted as well: two scans for one burst. *)
Lemma burst_triggers_two_scans :
  let w := started (<["a.pdf" := File (bytes_of "x")]>
                      (<[".b.pdf" := File (bytes_of "y")]> ∅))
             true true 0 100 in
  let r := dispatch_events quiet
             [(100, mk_event false "a.pdf"); (101, mk_event false ".b.pdf")]
             w in
  r.1 = Return tt ∧
  scans r.2 = 2%nat ∧
  probes r.2 = 2%nat ∧
  out r.2 = [MsgDownloadComplete; MsgDownloadComplete; MsgNoFiles] ∧
  101 - 100 < delay (handler w) ∧
  suffix "a.pdf" = ".pdf" ∧ suffix ".b.pdf" = ".pdf" ∧
  (".pdf" ∉ TEMPORARY_EXTENSIONS).
Proof.
  cbv zeta. repeat split; try (vm_compute; reflexivity).
  by_compute.
Qed.
